(** * Jharkhand tourism backend: guide store and authentication handlers

  A shallow embedding of [src/controllers/guides.controller.ts] and
  [src/controllers/auth.controller.ts], with the properties of the
  specification stated over it.

  Layout: the response envelope ([Http]), JSON request bodies ([Js]),
  the guide handlers ([Guides]), the authentication handlers ([Auth]),
  then the properties, grouped as the handlers are. *)

From Stdlib Require Import ZArith.
From stdpp Require Import base option list strings gmap.

Open Scope Z_scope.

(** ** Response envelope *)

Module Http.

(** One entry of the [errors] array of a failure response. *)
Record FieldError := mkFieldError { field : string; message : string }.

(** What a handler wrote to [res]: the status code and the envelope
    [{success, data?, message?, errors?}]. *)
Record Response (D : Type) := mkResponse {
  statusCode : Z;
  success : bool;
  resMessage : option string;
  data : option D;
  errors : option (list FieldError)
}.
Arguments mkResponse {D}.
Arguments statusCode {D}.
Arguments success {D}.
Arguments resMessage {D}.
Arguments data {D}.
Arguments errors {D}.

(** Modelled from the spec: [sendError] of [utils/response.utils] is not
    among the sources; section 7 fixes the failure envelope as
    [{success: false, message, errors?}] under the given status. *)
Definition sendError {D} (msg : string) (code : Z)
    (errs : option (list FieldError)) : Response D :=
  mkResponse code false (Some msg) None errs.

(** Modelled from the spec: [sendSuccess] of [utils/response.utils] is not
    among the sources; the success envelope carries the data and the
    optional message under the given status. *)
Definition sendSuccess {D} (d : D) (code : Z) (msg : option string)
    : Response D :=
  mkResponse code true msg (Some d) None.

(** Modelled from the spec: the status [sendSuccess] uses when the caller
    passes none (section 6: [GET /auth/me] answers 200). *)
Definition defaultStatus : Z := 200.

End Http.

(** ** JSON values and JavaScript objects *)

Module Js.

(** A value of a parsed request body or of a stored object. Numbers are
    the rates of a guide; the handlers only test them for truthiness, so
    they are kept as integers. [JDate] is a [Date] built by a handler. *)
#[warnings="-register-all"] Inductive JValue :=
| JNull
| JBool (b : bool)
| JNum (n : Z)
| JStr (s : string)
| JDate (t : Z)
| JArr (xs : list JValue)
| JObj (fields : gmap string JValue).

(** A JavaScript object: its own properties. A missing key reads as
    [undefined], which is [None] here. *)
Abbreviation Obj := (gmap string JValue).

(** [!!v]: ToBoolean on a property read. *)
Definition truthy (v : option JValue) : bool :=
  match v with
  | None => false
  | Some JNull => false
  | Some (JBool b) => b
  | Some (JNum n) => negb (n =? 0)
  | Some (JStr s) => negb (String.eqb s "")
  | Some (JDate _) => true
  | Some (JArr _) => true
  | Some (JObj _) => true
  end.

(** [v?.k] for a key [k] that is no built-in property of strings, arrays
    or dates (the handlers read [fullDay]): [undefined] when [v] is
    [undefined] or [null], and when [v] is not an object with that key. *)
Definition optChain (v : option JValue) (k : string) : option JValue :=
  match v with
  | Some (JObj fs) => fs !! k
  | _ => None
  end.

(** [{...a, ...b}]: the properties of [b] win. *)
Definition spread (a b : Obj) : Obj := b ∪ a.

(** [{...o, k: v}] where [v] is a property read: a key set to
    [undefined] reads as [undefined] afterwards. *)
Definition assign (k : string) (v : option JValue) (o : Obj) : Obj :=
  match v with
  | Some x => <[k := x]> o
  | None => delete k o
  end.

(** [o.k === s] for a string [s]. *)
Definition strictEqStr (v : option JValue) (s : string) : bool :=
  match v with
  | Some (JStr t) => String.eqb t s
  | _ => false
  end.

End Js.

(** ** Guides: [models/guides/Guide.model.ts], [controllers/guides.controller.ts] *)

Module Guides.
Import Http Js.

(** A stored guide is the object the handler built; [guidesStore] is
    the array of them. *)
Abbreviation Guide := (gmap string JValue).
Abbreviation Store := (list (gmap string JValue)).

Definition nameRequired : FieldError :=
  mkFieldError "name" "Name is required".
Definition bioRequired : FieldError :=
  mkFieldError "bio" "Bio is required".
Definition fullDayRequired : FieldError :=
  mkFieldError "pricing.fullDay" "Full day pricing is required".

(** The "basic validation" of [createGuide]: the [errors] array after the
    three pushes. *)
Definition validateCreate (input : Obj) : list FieldError :=
  (if truthy (input !! "name") then [] else [nameRequired]) ++
  (if truthy (input !! "bio") then [] else [bioRequired]) ++
  (if truthy (optChain (input !! "pricing") "fullDay") then []
   else [fullDayRequired]).

(** [{ _id: generateId(), ...input, createdAt: now, updatedAt: now }]. *)
Definition buildGuide (id : string) (now : Z) (input : Obj) : Guide :=
  <["updatedAt" := JDate now]>
    (<["createdAt" := JDate now]> (spread {["_id" := JStr id]} input)).

(** [createGuide]: [id] is what [generateId()] returned and [now] the
    [new Date()] of this request. *)
Definition createGuide (id : string) (now : Z) (input : Obj) (store : Store)
    : Response Guide * Store :=
  let errs := validateCreate input in
  if (0 <? length errs)%nat then
    (sendError "Validation failed" 400 (Some errs), store)
  else
    let newGuide := buildGuide id now input in
    (sendSuccess newGuide 201 (Some "Guide profile created successfully"),
     store ++ [newGuide]).

(** [guidesStore.findIndex(g => g._id === id)], with the element found. *)
Definition findIndex (id : string) (store : Store) : option (nat * Guide) :=
  list_find (λ g : Guide, Is_true (strictEqStr (g !! "_id") id)) store.

(** [{ ...old, ...updates, _id: old._id, createdAt: old.createdAt,
      updatedAt: new Date() }]. *)
Definition mergeGuide (now : Z) (old updates : Obj) : Guide :=
  <["updatedAt" := JDate now]>
    (assign "createdAt" (old !! "createdAt")
       (assign "_id" (old !! "_id") (spread old updates))).

(** [updateGuide]. *)
Definition updateGuide (id : string) (now : Z) (updates : Obj)
    (store : Store) : Response Guide * Store :=
  match findIndex id store with
  | None => (sendError "Guide not found" 404 None, store)
  | Some (index, old) =>
      let updatedGuide := mergeGuide now old updates in
      (sendSuccess updatedGuide 200
         (Some "Guide profile updated successfully"),
       <[index := updatedGuide]> store)
  end.

(** [getGuideById]. *)
Definition getGuideById (id : string) (store : Store) : Response Guide :=
  match findIndex id store with
  | None => sendError "Guide not found" 404 None
  | Some (_, guide) => sendSuccess guide defaultStatus None
  end.

(** [deleteGuide]: [guidesStore.splice(index, 1)]; the payload of the
    answer is [null]. *)
Definition deleteGuide (id : string) (store : Store) : Response unit * Store :=
  match findIndex id store with
  | None => (sendError "Guide not found" 404 None, store)
  | Some (index, _) =>
      (sendSuccess () 200 (Some "Guide profile deleted successfully"),
       delete index store)
  end.

(** The relative index of [Array.prototype.slice]: a negative index counts
    from the end, and the result is clamped to the array. *)
Definition relIndex (len i : Z) : Z :=
  if i <? 0 then Z.max (len + i) 0 else Z.min i len.

(** [l.slice(first, last)]. *)
Definition slice {A} (first last : Z) (l : list A) : list A :=
  let len := Z.of_nat (length l) in
  let k := relIndex len first in
  let final := relIndex len last in
  take (Z.to_nat (final - k)) (drop (Z.to_nat k) l).

(** [xs.some(p)] and [xs.filter(p)] for a callback that can throw: [None]
    is the exception, which ends the iteration. *)
Fixpoint someThrowing {A} (p : A → option bool) (xs : list A) : option bool :=
  match xs with
  | [] => Some false
  | x :: rest =>
      match p x with
      | None => None
      | Some true => Some true
      | Some false => someThrowing p rest
      end
  end.

Fixpoint filterThrowing {A} (p : A → option bool) (xs : list A)
    : option (list A) :=
  match xs with
  | [] => Some []
  | x :: rest =>
      match p x with
      | None => None
      | Some keep =>
          match filterThrowing p rest with
          | None => None
          | Some kept => Some (if keep then x :: kept else kept)
          end
      end
  end.

Section Listing.

(** [String.prototype.toLowerCase], and [getPaginationMeta] of
    [utils/response.utils] with the type of its result: neither is among
    the sources. *)
Context (toLowerCase : string → string).
Context {Meta : Type} (getPaginationMeta : Z → Z → Z → Meta).

(** [s.toLowerCase() === specialization.toLowerCase()]: a TypeError when
    [s] is not a string. *)
Definition sameSpecialization (wanted : string) (s : JValue) : option bool :=
  match s with
  | JStr t => Some (String.eqb (toLowerCase t) (toLowerCase wanted))
  | _ => None
  end.

(** [g.specializations.some(...)]: a TypeError when [g.specializations] is
    not an array. *)
Definition hasSpecialization (wanted : string) (g : Guide) : option bool :=
  match g !! "specializations" with
  | Some (JArr xs) => someThrowing (sameSpecialization wanted) xs
  | _ => None
  end.

(** The [data] of the answer of [getAllGuides]. *)
Record Listing := mkListing {
  guides : list (gmap string JValue);
  pagination : Meta
}.

(** [getAllGuides]: [page] and [limit] are what [parsePaginationParams]
    returned, [specialization] is [req.query.specialization]. The handler
    has no [try]: [None] is the exception it lets escape. *)
Definition getAllGuides (page limit : Z) (specialization : option string)
    (store : Store) : option (Response Listing) :=
  filtered ←
    (if truthy (JStr <$> specialization) then
       filterThrowing (hasSpecialization (default "" specialization)) store
     else Some store);
  let startIndex := (page - 1) * limit in
  let paginatedGuides := slice startIndex (startIndex + limit) filtered in
  Some (sendSuccess
          (mkListing paginatedGuides
             (getPaginationMeta page limit (Z.of_nat (length filtered))))
          defaultStatus None).

End Listing.

(** The guides of an answer of [getAllGuides]; [[]] when it has none. *)
Definition guidesOf {Meta} (r : option (Response (@Listing Meta)))
    : list (gmap string JValue) :=
  match r with
  | Some res => match data res with Some d => guides d | None => [] end
  | None => []
  end.

(** *** Sample data *)

(** A guide created without a half-day rate. *)
Definition noHalfDayInput : Obj :=
  {[ "name" := JStr "Asha";
     "bio" := JStr "Forest walks";
     "pricing" := JObj {[ "fullDay" := JNum 1500 ]} ]}.

(** A request body that tries to overwrite the identifier and the creation
    date. *)
Definition hostileUpdate : Obj :=
  {[ "_id" := JStr "other"; "createdAt" := JDate 99; "bio" := JStr "New" ]}.

(** Two stored guides, and a store that holds them. *)
Definition wildlifeGuide : Guide :=
  {[ "_id" := JStr "g1"; "name" := JStr "Asha";
     "specializations" := JArr [JStr "Wildlife"; JStr "Trekking"] ]}.

Definition heritageGuide : Guide :=
  {[ "_id" := JStr "g2"; "name" := JStr "Binod";
     "specializations" := JArr [JStr "Heritage"] ]}.

Definition sampleStore : Store := [wildlifeGuide; heritageGuide].

(** Lower case on the letters A to Z, to run the listing. *)
Fixpoint asciiLower (s : string) : string :=
  match s with
  | EmptyString => EmptyString
  | String c rest =>
      let n := Ascii.nat_of_ascii c in
      String (if (65 <=? n)%nat && (n <=? 90)%nat
              then Ascii.ascii_of_nat (n + 32) else c)
        (asciiLower rest)
  end.

(** A stand-in for [getPaginationMeta]: the three numbers it is given. *)
Definition plainMeta (page limit total : Z) : Z * Z * Z := (page, limit, total).

End Guides.

(** ** Authentication: [controllers/auth.controller.ts] *)

Module Auth.
Import Http.

Abbreviation Time := Z.

(** *** Collaborators

    The user model, the password hasher and the token issuer are imported
    by the controller and are not among the sources. *)

(** Modelled from the spec: the Password Hasher (section 2), a salted
    one-way hash with a verify operation. [bcryptCompare plain hash]. *)
Class PasswordHasher := {
  bcryptHash : string → string → string;
  bcryptCompare : string → string → bool
}.

(** Modelled from the spec: the Token Issuer (section 4.5),
    [generateToken userId role] of [middleware/auth.middleware] and its
    inverse. The token is opaque; expiry is not represented. *)
Class TokenIssuer := {
  Token : Type;
  generateToken : string → string → Token;
  decodeToken : Token → option (string * string)
}.

(** A value thrown by an awaited call: whether it is an [Error], its
    [name], its [code] if it has one, and the [errors] of a Mongoose
    validation error. *)
Record JsError := mkJsError {
  isErrorInstance : bool;
  errName : string;
  errCode : option Z;
  errFields : list FieldError
}.

(** Modelled from the spec: the error of the store's unique index on
    [email] (sections 2 and 4.1), the duplicate-key error of the driver. *)
Definition duplicateKeyError : JsError :=
  mkJsError true "MongoServerError" (Some 11000) [].

(** The rejection of [bcrypt.compare] on a document loaded without its
    password. *)
Definition missingHashError : JsError :=
  mkJsError true "Error" None [].

(** Modelled from the spec: the User of section 3. [P] is [string] for a
    stored record and [option string] for a loaded document, whose
    password is there only when the query selected it. *)
Record UserFields (P : Type) := mkUser {
  _id : string;
  email : string;
  password : P;
  name : string;
  role : string;
  isActive : bool;
  lastLogin : option Time;
  createdAt : Time;
  updatedAt : Time
}.
Arguments mkUser {P}.
Arguments _id {P}.
Arguments email {P}.
Arguments password {P}.
Arguments name {P}.
Arguments role {P}.
Arguments isActive {P}.
Arguments lastLogin {P}.
Arguments createdAt {P}.
Arguments updatedAt {P}.

Abbreviation User := (UserFields string).
Abbreviation Db := (list (UserFields string)).

(** A loaded [IUserDocument]: its fields and whether [password] was
    assigned since loading. *)
Record IUserDocument := mkDoc {
  doc : UserFields (option string);
  passwordModified : bool
}.

(** What [new UserModel({email, password, name, role})] holds before it is
    saved. *)
Record NewUser := mkNewUser {
  newId : string;
  newEmail : string;
  newPassword : string;
  newName : string;
  newRole : string
}.

(** Modelled from the spec: the sanitized representation of section 6,
    what [toUserResponse] returns. It has no password field. *)
Record UserResponse := mkUserResponse {
  resId : string;
  resEmail : string;
  resName : string;
  resRole : string;
  resIsActive : bool;
  resCreatedAt : Time;
  resLastLogin : option Time
}.

Definition toUserResponse (d : IUserDocument) : UserResponse :=
  let u := doc d in
  mkUserResponse (_id u) (email u) (name u) (role u) (isActive u)
    (createdAt u) (lastLogin u).

(** The [data] of the responses of this controller. *)
Inductive AuthData `{TokenIssuer} :=
| UserAndToken (user : UserResponse) (token : Token)
| Profile (user : UserResponse).

(** *** One request against the store

    What the world decides during one request: the clock, the identifier
    and the salt drawn for a new record, whether the query or the write
    is rejected, and the records other requests insert while this one
    awaits between its query and its write. *)
Record Env := mkEnv {
  now : Time;
  freshId : string;
  salt : string;
  queryFault : option JsError;
  saveFault : option JsError;
  racingInserts : list (UserFields string)
}.

Inductive Outcome (A : Type) :=
| Returns (a : A)
| Throws (e : JsError).
Arguments Returns {A}.
Arguments Throws {A}.

(** The body of a [try] block: it reads and writes the collection and
    either returns or throws. *)
Definition Try (A : Type) : Type := Db → Outcome A * Db.

#[export] Instance Try_ret : MRet Try := λ A a db, (Returns a, db).

#[export] Instance Try_bind : MBind Try := λ A B k m db,
  match m db with
  | (Returns a, db') => k a db'
  | (Throws e, db') => (Throws e, db')
  end.

(** [try { body } catch (error) { handler }]. *)
Definition tryCatch {R} (body : Try R) (handler : JsError → R)
    : Db → R * Db :=
  λ db, match body db with
        | (Returns r, db') => (r, db')
        | (Throws e, db') => (handler e, db')
        end.

(** An awaited read of the collection. *)
Definition query {A} (env : Env) (read : Db → A) : Try A :=
  λ db, match queryFault env with
        | Some e => (Throws e, db)
        | None => (Returns (read db), db)
        end.

(** The writes of other requests that land while this one awaits. *)
Definition interleave (env : Env) : Try unit :=
  λ db, (Returns (), db ++ racingInserts env).

Definition load (includePassword : bool) (u : User) : IUserDocument :=
  mkDoc
    (mkUser (_id u) (email u)
       (if includePassword then Some (password u) else None)
       (name u) (role u) (isActive u) (lastLogin u) (createdAt u)
       (updatedAt u))
    false.

(** Modelled from the spec: lookup by exact equality of the email
    (section 9, no normalisation) and by identifier. *)
Definition lookupEmail (mail : string) (db : Db) : option User :=
  snd <$> list_find (λ u : User, email u = mail) db.

Definition lookupId (uid : string) (db : Db) : option User :=
  snd <$> list_find (λ u : User, _id u = uid) db.

(** [UserModel.findOne({ email })]: the password is not selected. *)
Definition findOne (env : Env) (mail : string) : Try (option IUserDocument) :=
  query env (λ db, load false <$> lookupEmail mail db).

(** [UserModel.findByEmail(email)]: selects the password too. *)
Definition findByEmail (env : Env) (mail : string)
    : Try (option IUserDocument) :=
  query env (λ db, load true <$> lookupEmail mail db).

(** [UserModel.findById(userId)], with [.select('+password')] or not. *)
Definition findById (env : Env) (uid : string) (includePassword : bool)
    : Try (option IUserDocument) :=
  query env (λ db, load includePassword <$> lookupId uid db).

Section WithHasher.
Context {hasher : PasswordHasher}.

(** [user.comparePassword(candidate)]. *)
Definition comparePassword (d : IUserDocument) (candidate : string)
    : Try bool :=
  λ db, match password (doc d) with
        | Some h => (Returns (bcryptCompare candidate h), db)
        | None => (Throws missingHashError, db)
        end.

(** Modelled from the spec: the record a first [save()] inserts; the
    pre-save hook hashes the plaintext, the account starts active and has
    no last login (sections 3 and 4.1). *)
Definition storedOfNew (env : Env) (n : NewUser) : User :=
  mkUser (newId n) (newEmail n) (bcryptHash (salt env) (newPassword n))
    (newName n) (newRole n) true None (now env) (now env).

(** Modelled from the spec: [save()] of a new document. The write can be
    rejected; the unique index on [email] rejects a second record with
    the same email; otherwise the record is appended. *)
Definition saveNew (env : Env) (n : NewUser) : Try IUserDocument :=
  λ db, match saveFault env with
        | Some e => (Throws e, db)
        | None =>
            match lookupEmail (newEmail n) db with
            | Some _ => (Throws duplicateKeyError, db)
            | None =>
                let u := storedOfNew env n in
                (Returns (load true u), db ++ [u])
            end
        end.

(** Modelled from the spec: what [save()] of a loaded document writes over
    the stored record: the name, the last login, the hash of the password
    when it was assigned (the pre-save hook hashes on modification only,
    section 9), the update time. *)
Definition storedOfDoc (env : Env) (d : IUserDocument) (old : User) : User :=
  mkUser (_id old) (email old)
    (match passwordModified d, password (doc d) with
     | true, Some plain => bcryptHash (salt env) plain
     | _, _ => password old
     end)
    (name (doc d)) (role old) (isActive old) (lastLogin (doc d))
    (createdAt old) (now env).

Definition writeBack (env : Env) (d : IUserDocument) (db : Db) : Db :=
  (λ u : User, if decide (_id u = _id (doc d)) then storedOfDoc env d u else u)
    <$> db.

(** The document as it is in memory after a successful [save()]. *)
Definition afterSave (env : Env) (d : IUserDocument) : IUserDocument :=
  let u := doc d in
  mkDoc
    (mkUser (_id u) (email u)
       (match passwordModified d, password u with
        | true, Some plain => Some (bcryptHash (salt env) plain)
        | _, p => p
        end)
       (name u) (role u) (isActive u) (lastLogin u) (createdAt u) (now env))
    false.

Definition save (env : Env) (d : IUserDocument) : Try IUserDocument :=
  λ db, match saveFault env with
        | Some e => (Throws e, db)
        | None => (Returns (afterSave env d), writeBack env d db)
        end.

End WithHasher.

(** Assignments to a loaded document. *)
Definition setName (v : string) (d : IUserDocument) : IUserDocument :=
  let u := doc d in
  mkDoc (mkUser (_id u) (email u) (password u) v (role u) (isActive u)
           (lastLogin u) (createdAt u) (updatedAt u))
    (passwordModified d).

Definition setPassword (v : string) (d : IUserDocument) : IUserDocument :=
  let u := doc d in
  mkDoc (mkUser (_id u) (email u) (Some v) (name u) (role u) (isActive u)
           (lastLogin u) (createdAt u) (updatedAt u))
    true.

Definition setLastLogin (t : Time) (d : IUserDocument) : IUserDocument :=
  let u := doc d in
  mkDoc (mkUser (_id u) (email u) (password u) (name u) (role u) (isActive u)
           (Some t) (createdAt u) (updatedAt u))
    (passwordModified d).

(** *** Request bodies *)

Record RegisterDTO := mkRegisterDTO {
  regEmail : string;
  regPassword : string;
  regName : string;
  regRole : option string
}.

Record LoginDTO := mkLoginDTO {
  loginEmail : string;
  loginPassword : string
}.

(** The body of [PUT /auth/me]: [{name?, currentPassword?, newPassword?}]. *)
Record UpdateProfileBody := mkUpdateProfileBody {
  updName : option string;
  updCurrentPassword : option string;
  updNewPassword : option string
}.

(** ToBoolean on an optional string: [undefined] and [""] are falsy. *)
Definition truthyStr (v : option string) : bool :=
  match v with
  | Some s => negb (String.eqb s "")
  | None => false
  end.

(** [v || fallback]. *)
Definition orElse (v : option string) (fallback : string) : string :=
  match v with
  | Some s => if String.eqb s "" then fallback else s
  | None => fallback
  end.

(** The string a truthy optional string holds. *)
Definition strOf (v : option string) : string := default "" v.

Section Handlers.
Context {hasher : PasswordHasher} {issuer : TokenIssuer}.

Abbreviation Res := (Response AuthData).

(** [getAuthenticatedUser]: [inl] is the error it sent before returning
    [null], [inr] the user it returned. [userId] is [req.user?.userId]. *)
Definition getAuthenticatedUser (env : Env) (userId : option string)
    (includePassword : bool) : Try (Res + IUserDocument) :=
  if negb (truthyStr userId) then
    mret (inl (sendError "User not found in request" 401 None))
  else
    user ← findById env (strOf userId) includePassword;
    match user with
    | None => mret (inl (sendError "User not found" 404 None))
    | Some user => mret (inr user)
    end.

(** The [catch] of [register]. *)
Definition registerCatch (error : JsError) : Res :=
  if isErrorInstance error && String.eqb (errName error) "ValidationError"
  then sendError "Validation failed" 400 (Some (errFields error))
  else if isErrorInstance error && bool_decide (errCode error = Some 11000)
  then sendError "Email already registered" 409 None
  else sendError "Registration failed" 500 None.

Definition register (env : Env) (body : RegisterDTO) : Db → Res * Db :=
  tryCatch
    (existingUser ← findOne env (regEmail body);
     match existingUser with
     | Some _ => mret (sendError "Email already registered" 409 None)
     | None =>
         let user := mkNewUser (freshId env) (regEmail body)
                       (regPassword body) (regName body)
                       (orElse (regRole body) "customer") in
         _ ← interleave env;
         user ← saveNew env user;
         let token := generateToken (_id (doc user)) (role (doc user)) in
         mret (sendSuccess (UserAndToken (toUserResponse user) token) 201
                 (Some "Registration successful"))
     end)
    registerCatch.

Definition login (env : Env) (body : LoginDTO) : Db → Res * Db :=
  tryCatch
    (user ← findByEmail env (loginEmail body);
     match user with
     | None => mret (sendError "Invalid credentials" 401 None)
     | Some user =>
         if negb (isActive (doc user)) then
           mret (sendError "Account is deactivated" 403 None)
         else
           isMatch ← comparePassword user (loginPassword body);
           if negb isMatch then
             mret (sendError "Invalid credentials" 401 None)
           else
             let user := setLastLogin (now env) user in
             user ← save env user;
             let token := generateToken (_id (doc user)) (role (doc user)) in
             mret (sendSuccess (UserAndToken (toUserResponse user) token) 200
                     (Some "Login successful"))
     end)
    (λ _, sendError "Login failed" 500 None).

Definition getProfile (env : Env) (userId : option string) : Db → Res * Db :=
  tryCatch
    (user ← getAuthenticatedUser env userId false;
     match user with
     | inl sent => mret sent
     | inr user =>
         if negb (isActive (doc user)) then
           mret (sendError "Account is deactivated" 403 None)
         else
           mret (sendSuccess (Profile (toUserResponse user)) defaultStatus
                   None)
     end)
    (λ _, sendError "Failed to get profile" 500 None).

(** The end of [updateProfile]: save, then answer. *)
Definition saveAndAnswer (env : Env) (user : IUserDocument) : Try Res :=
  user ← save env user;
  mret (sendSuccess (Profile (toUserResponse user)) 200
          (Some "Profile updated successfully")).

Definition updateProfile (env : Env) (userId : option string)
    (body : UpdateProfileBody) : Db → Res * Db :=
  tryCatch
    (user ← getAuthenticatedUser env userId true;
     match user with
     | inl sent => mret sent
     | inr user =>
         let user :=
           if truthyStr (updName body) then setName (strOf (updName body)) user
           else user in
         if truthyStr (updNewPassword body)
            && truthyStr (updCurrentPassword body) then
           isMatch ← comparePassword user (strOf (updCurrentPassword body));
           if negb isMatch then
             mret (sendError "Current password is incorrect" 400 None)
           else
             saveAndAnswer env
               (setPassword (strOf (updNewPassword body)) user)
         else
           saveAndAnswer env user
     end)
    (λ _, sendError "Failed to update profile" 500 None).

(** The record a successful [register] inserts. *)
Definition created (env : Env) (body : RegisterDTO) : User :=
  storedOfNew env
    (mkNewUser (freshId env) (regEmail body) (regPassword body)
       (regName body) (orElse (regRole body) "customer")).

(** The document a successful [login] answers with. *)
Definition loggedIn (env : Env) (u : User) : IUserDocument :=
  afterSave env (setLastLogin (now env) (load true u)).

(** The document of [updateProfile] after [if (name) user.name = name]. *)
Definition named (body : UpdateProfileBody) (d : IUserDocument)
    : IUserDocument :=
  if truthyStr (updName body) then setName (strOf (updName body)) d else d.

End Handlers.

(** *** A concrete hasher and issuer, to run the handlers *)

(** A stand-in hasher: the hash is the salt, a dollar sign and the
    plaintext; a plaintext matches a hash that ends with the dollar sign
    and it. *)
Fixpoint endsWith (suffix s : string) : bool :=
  String.eqb s suffix ||
  match s with
  | EmptyString => false
  | String _ rest => endsWith suffix rest
  end.

Definition demoHasher : PasswordHasher := {|
  bcryptHash s p := s +:+ "$" +:+ p;
  bcryptCompare p h := endsWith ("$" +:+ p) h
|}.

(** A stand-in issuer: the token is the pair it encodes. *)
Definition demoIssuer : TokenIssuer := {|
  Token := string * string;
  generateToken uid r := (uid, r);
  decodeToken t := Some t
|}.

(** *** Sample data *)

Definition asha : User :=
  mkUser "u1" "a@b.com" "s$Passw0rd!" "A" "customer" true None 1 1.

Definition binod : User :=
  mkUser "u2" "b@b.com" "s$hunter22" "B" "customer" false None 2 2.

Definition sampleDb : Db := [asha; binod].

Definition chandra : User :=
  mkUser "u7" "c@b.com" "s$sal-forest" "C" "customer" true None 9 9.

(** A request during which nothing fails and nobody else writes. *)
Definition quietEnv : Env := mkEnv 10 "u9" "s" None None [].

(** A request whose write is rejected by the store. *)
Definition writeDownEnv : Env :=
  mkEnv 10 "u9" "s" None (Some (mkJsError true "MongoNetworkError" None []))
    [].

(** A request during which another registration of ["c@b.com"] lands. *)
Definition racingEnv : Env := mkEnv 10 "u9" "s" None None [chandra].

End Auth.

(** ** Properties of the guide handlers *)

Module GuideProps.
Import Http Js Guides.

Lemma createGuide_rejected id now input store :
  validateCreate input ≠ [] →
  createGuide id now input store =
    (sendError "Validation failed" 400 (Some (validateCreate input)), store).
Proof.
  intros Hne. unfold createGuide.
  destruct (validateCreate input) as [|e es]; [done|reflexivity].
Qed.

Lemma createGuide_accepted id now input store :
  validateCreate input = [] →
  createGuide id now input store =
    (sendSuccess (buildGuide id now input) 201
       (Some "Guide profile created successfully"),
     store ++ [buildGuide id now input]).
Proof. intros Hnil. unfold createGuide. by rewrite Hnil. Qed.

Lemma validateCreate_fullDay input :
  truthy (optChain (input !! "pricing") "fullDay") = false →
  fullDayRequired ∈ validateCreate input.
Proof.
  intros Hf. unfold validateCreate. rewrite Hf.
  rewrite !elem_of_app. right; right. apply list_elem_of_here.
Qed.

Lemma validateCreate_nil input :
  truthy (input !! "name") = true →
  truthy (input !! "bio") = true →
  truthy (optChain (input !! "pricing") "fullDay") = true →
  validateCreate input = [].
Proof. intros Hn Hb Hf. unfold validateCreate. by rewrite Hn, Hb, Hf. Qed.

Lemma assign_lookup_eq k v (o : Obj) : assign k v o !! k = v.
Proof.
  destruct v as [x|]; simpl; [apply lookup_insert_eq|apply lookup_delete_eq].
Qed.

Lemma assign_lookup_ne k j v (o : Obj) : k ≠ j → assign k v o !! j = o !! j.
Proof.
  intros Hne. destruct v as [x|]; simpl;
    [by apply lookup_insert_ne|by apply lookup_delete_ne].
Qed.

Lemma spread_lookup (a b : Obj) k :
  spread a b !! k = match b !! k with Some v => Some v | None => a !! k end.
Proof.
  unfold spread. rewrite lookup_union. destruct (b !! k), (a !! k); done.
Qed.

Lemma mergeGuide_id now old updates :
  mergeGuide now old updates !! "_id" = old !! "_id".
Proof.
  unfold mergeGuide. rewrite lookup_insert_ne by done.
  rewrite assign_lookup_ne by done. apply assign_lookup_eq.
Qed.

Lemma mergeGuide_createdAt now old updates :
  mergeGuide now old updates !! "createdAt" = old !! "createdAt".
Proof.
  unfold mergeGuide. rewrite lookup_insert_ne by done. apply assign_lookup_eq.
Qed.

Lemma mergeGuide_updatedAt now old updates :
  mergeGuide now old updates !! "updatedAt" = Some (JDate now).
Proof. unfold mergeGuide. apply lookup_insert_eq. Qed.

Lemma mergeGuide_other now old updates k :
  k ≠ "_id" → k ≠ "createdAt" → k ≠ "updatedAt" →
  mergeGuide now old updates !! k =
    match updates !! k with Some v => Some v | None => old !! k end.
Proof.
  intros H1 H2 H3. unfold mergeGuide.
  rewrite lookup_insert_ne by done.
  rewrite !assign_lookup_ne by done. apply spread_lookup.
Qed.

Lemma findIndex_Some id store index old :
  findIndex id store = Some (index, old) →
  store !! index = Some old ∧ old !! "_id" = Some (JStr id).
Proof.
  unfold findIndex. intros H. apply list_find_Some in H as (Hl & Hp & _).
  split; [done|]. unfold strictEqStr in Hp.
  destruct (old !! "_id") as [[]|]; try done.
  apply Is_true_true, String.eqb_eq in Hp. by subst.
Qed.

(** C8, as the handler behaves: a guide whose pricing has no half-day rate
    is accepted with 201 and pushed on the store. *)
Lemma createGuide_no_halfDay_accepted :
  optChain (noHalfDayInput !! "pricing") "halfDay" = None ∧
  statusCode (fst (createGuide "g1" 7 noHalfDayInput [])) = 201 ∧
  snd (createGuide "g1" 7 noHalfDayInput []) =
    [buildGuide "g1" 7 noHalfDayInput].
Proof. split; [reflexivity|]. split; reflexivity. Qed.

(** C8, amended: a request whose pricing lacks a full-day rate fails
    with "Validation failed", status 400 and the field-level errors, among
    them the one for [pricing.fullDay], and the store is left as it was.
    A name, a bio and a full-day rate are all the handler requires: a
    request that has them is answered 201 and its guide is pushed on the
    store, whether or not it has a half-day rate. *)
Theorem createGuide_requires_fullDay id now (input : Obj) (store : Store) :
  (optChain (input !! "pricing") "fullDay" = None →
     createGuide id now input store =
       (sendError "Validation failed" 400 (Some (validateCreate input)),
        store)
     ∧ fullDayRequired ∈ validateCreate input)
  ∧ (truthy (input !! "name") = true →
     truthy (input !! "bio") = true →
     truthy (optChain (input !! "pricing") "fullDay") = true →
     createGuide id now input store =
       (sendSuccess (buildGuide id now input) 201
          (Some "Guide profile created successfully"),
        store ++ [buildGuide id now input])).
Proof.
  split.
  - intros Hnone.
    assert (Hf : truthy (optChain (input !! "pricing") "fullDay") = false)
      by (by rewrite Hnone).
    pose proof (validateCreate_fullDay input Hf) as Hin.
    split; [|done]. apply createGuide_rejected.
    intros Hnil. rewrite Hnil in Hin. by apply elem_of_nil in Hin.
  - intros Hn Hb Hf. apply createGuide_accepted.
    by apply validateCreate_nil.
Qed.

Lemma createGuide_requires_fullDay_witness :
  (createGuide "g2" 3 {[ "name" := JStr "Asha" ]} [] =
     (sendError "Validation failed" 400
        (Some (validateCreate {[ "name" := JStr "Asha" ]})), [])
   ∧ fullDayRequired ∈ validateCreate {[ "name" := JStr "Asha" ]})
  ∧ createGuide "g1" 7 noHalfDayInput [] =
      (sendSuccess (buildGuide "g1" 7 noHalfDayInput) 201
         (Some "Guide profile created successfully"),
       [buildGuide "g1" 7 noHalfDayInput]).
Proof.
  split.
  - apply (proj1 (createGuide_requires_fullDay "g2" 3
                    {[ "name" := JStr "Asha" ]} [])).
    reflexivity.
  - apply (proj2 (createGuide_requires_fullDay "g1" 7 noHalfDayInput []));
      reflexivity.
Defined.

(** C9: when [updateGuide] finds the guide, the object it stores at the
    same index has the [_id] and the [createdAt] of the guide that was
    there, whatever the payload holds under those keys; [updatedAt] is the
    time of the request, every other key comes from the payload or else
    from the old guide, and the other guides are untouched. *)
Theorem updateGuide_keeps_id_createdAt id now (updates : Obj) (store : Store)
    index (old : Guide) :
  findIndex id store = Some (index, old) →
  let new := mergeGuide now old updates in
  updateGuide id now updates store =
    (sendSuccess new 200 (Some "Guide profile updated successfully"),
     <[index := new]> store)
  ∧ store !! index = Some old
  ∧ snd (updateGuide id now updates store) !! index = Some new
  ∧ new !! "_id" = old !! "_id"
  ∧ new !! "_id" = Some (JStr id)
  ∧ new !! "createdAt" = old !! "createdAt"
  ∧ new !! "updatedAt" = Some (JDate now)
  ∧ (∀ k, k ≠ "_id" → k ≠ "createdAt" → k ≠ "updatedAt" →
       new !! k = match updates !! k with
                  | Some v => Some v
                  | None => old !! k
                  end)
  ∧ (∀ j, j ≠ index →
       snd (updateGuide id now updates store) !! j = store !! j).
Proof.
  intros Hfind new.
  destruct (findIndex_Some _ _ _ _ Hfind) as [Hold Hid].
  assert (Hupd : updateGuide id now updates store =
    (sendSuccess new 200 (Some "Guide profile updated successfully"),
     <[index := new]> store)) by (unfold updateGuide; by rewrite Hfind).
  rewrite Hupd. simpl.
  repeat split; try done.
  - apply list_lookup_insert_eq. by eapply lookup_lt_Some.
  - apply mergeGuide_id.
  - subst new. by rewrite mergeGuide_id.
  - apply mergeGuide_createdAt.
  - apply mergeGuide_updatedAt.
  - intros k H1 H2 H3. by apply mergeGuide_other.
  - intros j Hj. by apply list_lookup_insert_ne.
Qed.

Lemma updateGuide_keeps_id_createdAt_witness :
  let store := [buildGuide "g1" 7 noHalfDayInput] in
  let new := mergeGuide 8 (buildGuide "g1" 7 noHalfDayInput) hostileUpdate in
  snd (updateGuide "g1" 8 hostileUpdate store) !! 0%nat = Some new
  ∧ new !! "_id" = Some (JStr "g1")
  ∧ new !! "createdAt" = Some (JDate 7).
Proof.
  pose proof (updateGuide_keeps_id_createdAt "g1" 8 hostileUpdate
    [buildGuide "g1" 7 noHalfDayInput] 0%nat
    (buildGuide "g1" 7 noHalfDayInput) eq_refl) as H.
  simpl in H. destruct H as (_ & _ & H3 & _ & H5 & H6 & _).
  split; [exact H3|]. split; [exact H5|]. rewrite H6. reflexivity.
Defined.

(** C10: a request whose [pricing.fullDay] is 0 fails with status 400 and
    "Validation failed", the errors report [pricing.fullDay] as required,
    and the store is left as it was; with a name and a bio that pass, that
    is the only error reported. *)
Theorem createGuide_zero_fullDay id now (input pricing : Obj) (store : Store) :
  input !! "pricing" = Some (JObj pricing) →
  pricing !! "fullDay" = Some (JNum 0) →
  let res := fst (createGuide id now input store) in
  statusCode res = 400
  ∧ success res = false
  ∧ resMessage res = Some "Validation failed"
  ∧ (∃ errs, errors res = Some errs ∧ fullDayRequired ∈ errs)
  ∧ (truthy (input !! "name") = true → truthy (input !! "bio") = true →
       errors res = Some [fullDayRequired])
  ∧ snd (createGuide id now input store) = store.
Proof.
  intros Hp Hf.
  assert (Hfalsy : truthy (optChain (input !! "pricing") "fullDay") = false)
    by (by rewrite Hp; simpl; rewrite Hf).
  pose proof (validateCreate_fullDay input Hfalsy) as Hin.
  rewrite createGuide_rejected
    by (intros Hnil; rewrite Hnil in Hin; by apply elem_of_nil in Hin).
  simpl. repeat split; try done.
  - by exists (validateCreate input).
  - intros Hn Hb. unfold validateCreate. by rewrite Hn, Hb, Hfalsy.
Qed.

Lemma createGuide_zero_fullDay_witness :
  let input : Obj :=
    {[ "name" := JStr "Asha"; "bio" := JStr "Forest walks";
       "pricing" := JObj {[ "halfDay" := JNum 800; "fullDay" := JNum 0 ]} ]} in
  statusCode (fst (createGuide "g3" 5 input [])) = 400
  ∧ errors (fst (createGuide "g3" 5 input [])) = Some [fullDayRequired]
  ∧ snd (createGuide "g3" 5 input []) = [].
Proof.
  intros input.
  pose proof (createGuide_zero_fullDay "g3" 5 input
    {[ "halfDay" := JNum 800; "fullDay" := JNum 0 ]} [] eq_refl eq_refl) as H.
  simpl in H. destruct H as (H1 & _ & _ & _ & H5 & H6).
  split; [exact H1|]. split; [apply H5; reflexivity|exact H6].
Defined.

End GuideProps.

(** ** Properties of the authentication handlers *)

Module AuthProps.
Import Http Auth.

Section Lookup.

Lemma lookupEmail_None mail (db : Db) :
  lookupEmail mail db = None ↔ ∀ u, u ∈ db → email u ≠ mail.
Proof.
  unfold lookupEmail. rewrite fmap_None, list_find_None, Forall_forall.
  done.
Qed.

Lemma lookupEmail_app mail (db extra : Db) :
  lookupEmail mail (db ++ extra) =
    match lookupEmail mail db with
    | Some u => Some u
    | None => lookupEmail mail extra
    end.
Proof.
  unfold lookupEmail.
  destruct (list_find (λ u : User, email u = mail) db) as [[i v]|] eqn:Hf.
  - by rewrite (list_find_app_l _ _ _ _ _ Hf).
  - rewrite list_find_app_r by done. simpl.
    by destruct (list_find _ extra) as [[j w]|].
Qed.

(** A rewrite of the records that keeps every email keeps what a lookup by
    email finds, up to the rewrite. *)
Lemma lookupEmail_fmap mail (g : User → User) (db : Db) :
  (∀ u, email (g u) = email u) →
  lookupEmail mail (g <$> db) = g <$> lookupEmail mail db.
Proof.
  intros Hg. unfold lookupEmail. rewrite list_find_fmap.
  rewrite (list_find_ext _ (λ u : User, email u = mail))
    by (intros u; simpl; by rewrite Hg).
  by destruct (list_find _ db) as [[i v]|].
Qed.

Lemma lookupEmail_stored mail (db : Db) (u : User) :
  u ∈ db → email u = mail → is_Some (lookupEmail mail db).
Proof.
  intros Hin He. destruct (lookupEmail mail db) eqn:Hl; [by eexists|].
  rewrite lookupEmail_None in Hl. by destruct (Hl u Hin).
Qed.

End Lookup.

(** *** How each handler runs *)

Section Runs.
Context {hasher : PasswordHasher} {issuer : TokenIssuer}.

Ltac run_handler :=
  unfold tryCatch, getAuthenticatedUser, saveAndAnswer, findOne, findByEmail,
    findById, query, save, saveNew, interleave, comparePassword,
    mbind, mret, Try_bind, Try_ret.

Lemma login_query_fails env body db e :
  queryFault env = Some e →
  login env body db = (sendError "Login failed" 500 None, db).
Proof. intros Hq. unfold login. run_handler. by rewrite Hq. Qed.

Lemma login_unknown_email env body db :
  queryFault env = None →
  lookupEmail (loginEmail body) db = None →
  login env body db = (sendError "Invalid credentials" 401 None, db).
Proof. intros Hq Hl. unfold login. run_handler. by rewrite Hq, Hl. Qed.

Lemma login_deactivated env body db u :
  queryFault env = None →
  lookupEmail (loginEmail body) db = Some u →
  isActive u = false →
  login env body db = (sendError "Account is deactivated" 403 None, db).
Proof.
  intros Hq Hl Ha. unfold login. run_handler. rewrite Hq, Hl. simpl.
  by rewrite Ha.
Qed.

Lemma login_wrong_password env body db u :
  queryFault env = None →
  lookupEmail (loginEmail body) db = Some u →
  isActive u = true →
  bcryptCompare (loginPassword body) (password u) = false →
  login env body db = (sendError "Invalid credentials" 401 None, db).
Proof.
  intros Hq Hl Ha Hc. unfold login. run_handler. rewrite Hq, Hl. simpl.
  by rewrite Ha, Hc.
Qed.

Lemma login_save_fails env body db u e :
  queryFault env = None →
  lookupEmail (loginEmail body) db = Some u →
  isActive u = true →
  bcryptCompare (loginPassword body) (password u) = true →
  saveFault env = Some e →
  login env body db = (sendError "Login failed" 500 None, db).
Proof.
  intros Hq Hl Ha Hc Hs. unfold login. run_handler. rewrite Hq, Hl. simpl.
  by rewrite Ha, Hc, Hs.
Qed.

Lemma login_succeeds env body db u :
  queryFault env = None →
  lookupEmail (loginEmail body) db = Some u →
  isActive u = true →
  bcryptCompare (loginPassword body) (password u) = true →
  saveFault env = None →
  login env body db =
    (sendSuccess
       (UserAndToken (toUserResponse (loggedIn env u))
          (generateToken (_id u) (role u)))
       200 (Some "Login successful"),
     writeBack env (setLastLogin (now env) (load true u)) db).
Proof.
  intros Hq Hl Ha Hc Hs. unfold login. run_handler. rewrite Hq, Hl. simpl.
  by rewrite Ha, Hc, Hs.
Qed.

(** [login] answers 200 exactly when the query and the write go through
    and the user found is active with a matching password. *)
Lemma login_200_iff env body db :
  statusCode (fst (login env body db)) = 200 ↔
  queryFault env = None ∧ saveFault env = None ∧
  ∃ u, lookupEmail (loginEmail body) db = Some u ∧ isActive u = true ∧
       bcryptCompare (loginPassword body) (password u) = true.
Proof.
  destruct (queryFault env) as [e|] eqn:Hq.
  { rewrite (login_query_fails _ _ _ _ Hq). simpl.
    split; [discriminate|by intros [? _]]. }
  destruct (lookupEmail (loginEmail body) db) as [u|] eqn:Hl.
  2:{ rewrite login_unknown_email by done. simpl.
      split; [discriminate|by intros (_ & _ & u & ? & _)]. }
  destruct (isActive u) eqn:Ha.
  2:{ rewrite (login_deactivated _ _ _ _ Hq Hl Ha). simpl.
      split; [discriminate|intros (_ & _ & v & ? & ? & _); congruence]. }
  destruct (bcryptCompare (loginPassword body) (password u)) eqn:Hc.
  2:{ rewrite (login_wrong_password _ _ _ _ Hq Hl Ha Hc). simpl.
      split; [discriminate|intros (_ & _ & v & ? & _ & ?); congruence]. }
  destruct (saveFault env) as [e|] eqn:Hs.
  { rewrite (login_save_fails _ _ _ _ _ Hq Hl Ha Hc Hs). simpl.
    split; [discriminate|by intros (_ & ? & _)]. }
  rewrite (login_succeeds _ _ _ _ Hq Hl Ha Hc Hs). simpl.
  split; [|done]. intros _. split; [done|]. split; [done|]. by exists u.
Qed.

Lemma register_query_fails env body db e :
  queryFault env = Some e →
  register env body db = (registerCatch e, db).
Proof. intros Hq. unfold register. run_handler. by rewrite Hq. Qed.

Lemma register_precheck_conflict env body db u :
  queryFault env = None →
  lookupEmail (regEmail body) db = Some u →
  register env body db = (sendError "Email already registered" 409 None, db).
Proof. intros Hq Hl. unfold register. run_handler. by rewrite Hq, Hl. Qed.

Lemma register_insert_throws env body db e :
  queryFault env = None →
  lookupEmail (regEmail body) db = None →
  saveFault env = Some e →
  register env body db = (registerCatch e, db ++ racingInserts env).
Proof.
  intros Hq Hl Hs. unfold register. run_handler. by rewrite Hq, Hl, Hs.
Qed.

Lemma register_index_conflict env body db u :
  queryFault env = None →
  lookupEmail (regEmail body) db = None →
  saveFault env = None →
  lookupEmail (regEmail body) (racingInserts env) = Some u →
  register env body db =
    (sendError "Email already registered" 409 None, db ++ racingInserts env).
Proof.
  intros Hq Hl Hs Hr. unfold register. run_handler.
  rewrite Hq, Hl, Hs. simpl. by rewrite lookupEmail_app, Hl, Hr.
Qed.

Lemma registerCatch_duplicate_key e :
  isErrorInstance e = true →
  errCode e = Some 11000 →
  errName e ≠ "ValidationError" →
  registerCatch e = sendError "Email already registered" 409 None.
Proof.
  intros Hi Hc Hn. unfold registerCatch. rewrite Hi, Hc. simpl.
  apply String.eqb_neq in Hn. by rewrite Hn.
Qed.

Lemma register_succeeds env body db :
  queryFault env = None →
  saveFault env = None →
  lookupEmail (regEmail body) (db ++ racingInserts env) = None →
  register env body db =
    (sendSuccess
       (UserAndToken (toUserResponse (load true (created env body)))
          (generateToken (freshId env) (orElse (regRole body) "customer")))
       201 (Some "Registration successful"),
     (db ++ racingInserts env) ++ [created env body]).
Proof.
  intros Hq Hs Hl. unfold register. run_handler.
  pose proof Hl as Hl'. rewrite lookupEmail_app in Hl'.
  destruct (lookupEmail (regEmail body) db) eqn:Hdb; [done|].
  rewrite Hq, Hs. simpl. unfold created in *. by rewrite Hl.
Qed.

Lemma getProfile_deactivated env uid db u :
  queryFault env = None →
  uid ≠ "" →
  lookupId uid db = Some u →
  isActive u = false →
  getProfile env (Some uid) db =
    (sendError "Account is deactivated" 403 None, db).
Proof.
  intros Hq Hne Hl Ha. unfold getProfile. run_handler. simpl.
  apply String.eqb_neq in Hne. rewrite Hne, Hq. simpl. rewrite Hl. simpl.
  by rewrite Ha.
Qed.

Lemma updateProfile_wrong_current env uid body db u :
  queryFault env = None →
  uid ≠ "" →
  lookupId uid db = Some u →
  truthyStr (updNewPassword body) = true →
  truthyStr (updCurrentPassword body) = true →
  bcryptCompare (strOf (updCurrentPassword body)) (password u) = false →
  updateProfile env (Some uid) body db =
    (sendError "Current password is incorrect" 400 None, db).
Proof.
  intros Hq Hne Hl Hn Hc Hm. unfold updateProfile. run_handler. simpl.
  apply String.eqb_neq in Hne. rewrite Hne, Hq. simpl. rewrite Hl. simpl.
  rewrite Hn, Hc. simpl.
  destruct (truthyStr (updName body)); simpl; by rewrite Hm.
Qed.

Lemma updateProfile_no_password_change env userId body db :
  truthyStr (updNewPassword body) && truthyStr (updCurrentPassword body)
    = false →
  snd (updateProfile env userId body db) = db
  ∨ ∃ u, lookupId (strOf userId) db = Some u ∧
      snd (updateProfile env userId body db) =
        writeBack env (named body (load true u)) db.
Proof.
  intros Hb. unfold updateProfile. run_handler.
  destruct (truthyStr userId); simpl; [|by left].
  destruct (queryFault env); simpl; [by left|].
  destruct (lookupId (strOf userId) db) as [u|] eqn:Hl; simpl; [|by left].
  rewrite Hb.
  destruct (saveFault env); simpl; [by left|].
  right. exists u. split; [done|]. unfold named.
  by destruct (truthyStr (updName body)).
Qed.

Lemma passwordModified_named body u :
  passwordModified (named body (load true u)) = false.
Proof. unfold named. by destruct (truthyStr (updName body)). Qed.

Lemma storedOfDoc_password env d u :
  passwordModified d = false → password (storedOfDoc env d u) = password u.
Proof. intros Hm. unfold storedOfDoc. simpl. by rewrite Hm. Qed.

Lemma writeBack_password env d db :
  passwordModified d = false →
  password <$> writeBack env d db = password <$> db.
Proof.
  intros Hm. unfold writeBack. rewrite <- list_fmap_compose.
  apply list_fmap_ext. intros i u _. simpl.
  case_decide; [by apply storedOfDoc_password|done].
Qed.

(** A rewrite of the records that keeps email, active flag and hash keeps
    every successful login successful. *)
Lemma login_200_fmap env body (g : User → User) db :
  (∀ u, email (g u) = email u) →
  (∀ u, isActive (g u) = isActive u) →
  (∀ u, password (g u) = password u) →
  statusCode (fst (login env body db)) = 200 →
  statusCode (fst (login env body (g <$> db))) = 200.
Proof.
  intros He Ha Hp. rewrite !login_200_iff.
  intros (Hq & Hs & u & Hl & Hact & Hc).
  split; [done|]. split; [done|]. exists (g u).
  rewrite lookupEmail_fmap by done. rewrite Hl, Ha, Hp. done.
Qed.

Lemma login_200_writeBack env2 body env d db :
  passwordModified d = false →
  statusCode (fst (login env2 body db)) = 200 →
  statusCode (fst (login env2 body (writeBack env d db))) = 200.
Proof.
  intros Hm. unfold writeBack. apply login_200_fmap.
  - intros u. by case_decide.
  - intros u. by case_decide.
  - intros u. case_decide; [by apply storedOfDoc_password|done].
Qed.

Lemma writeBack_id env d db : _id <$> writeBack env d db = _id <$> db.
Proof.
  unfold writeBack. rewrite <- list_fmap_compose.
  apply list_fmap_ext. intros i u _. simpl. by case_decide.
Qed.

Lemma lookupEmail_writeBack env d db mail u :
  lookupEmail mail db = Some u →
  _id u = _id (doc d) →
  lookupEmail mail (writeBack env d db) = Some (storedOfDoc env d u).
Proof.
  intros Hl Hid. unfold writeBack.
  rewrite lookupEmail_fmap by (intros v; by case_decide).
  rewrite Hl. simpl. by rewrite decide_True.
Qed.

End Runs.

(** *** The claims of the specification *)

Section Claims.
Context {hasher : PasswordHasher} {issuer : TokenIssuer}.

(** C1: a login for an email no stored user has, and a login for the email
    of an active user with a password that does not match the stored
    hash, get the same response: status 401, "Invalid credentials", no
    data and no field errors; neither touches the store. *)
Theorem login_same_failure env1 env2 body1 body2 (db1 db2 : Db) u :
  queryFault env1 = None →
  queryFault env2 = None →
  (∀ v, v ∈ db1 → email v ≠ loginEmail body1) →
  lookupEmail (loginEmail body2) db2 = Some u →
  isActive u = true →
  bcryptCompare (loginPassword body2) (password u) = false →
  fst (login env1 body1 db1) = fst (login env2 body2 db2)
  ∧ fst (login env1 body1 db1) = sendError "Invalid credentials" 401 None
  ∧ snd (login env1 body1 db1) = db1
  ∧ snd (login env2 body2 db2) = db2.
Proof.
  intros Hq1 Hq2 Hnone Hsome Ha Hc.
  apply lookupEmail_None in Hnone.
  rewrite (login_unknown_email _ _ _ Hq1 Hnone).
  rewrite (login_wrong_password _ _ _ _ Hq2 Hsome Ha Hc). done.
Qed.

(** C2: a registration whose email a stored user already has answers 409,
    "Email already registered", and adds no record of its own: when the
    user is in the store at the pre-check query; when the pre-check finds
    nobody, the user is inserted by another request meanwhile and the
    unique index rejects the insert; and when the insert throws any error
    carrying the duplicate-key code 11000. *)
Theorem register_duplicate_email env body (db : Db) u :
  queryFault env = None →
  email u = regEmail body →
  (u ∈ db →
     register env body db =
       (sendError "Email already registered" 409 None, db))
  ∧ ((∀ v, v ∈ db → email v ≠ regEmail body) →
     saveFault env = None →
     u ∈ racingInserts env →
     register env body db =
       (sendError "Email already registered" 409 None,
        db ++ racingInserts env))
  ∧ (∀ e, (∀ v, v ∈ db → email v ≠ regEmail body) →
     saveFault env = Some e →
     isErrorInstance e = true →
     errCode e = Some 11000 →
     errName e ≠ "ValidationError" →
     register env body db =
       (sendError "Email already registered" 409 None,
        db ++ racingInserts env)).
Proof.
  intros Hq He. split; [|split].
  - intros Hin.
    destruct (lookupEmail_stored _ _ _ Hin He) as [v Hl].
    by eapply register_precheck_conflict.
  - intros Hl Hs Hin. apply lookupEmail_None in Hl.
    destruct (lookupEmail_stored _ _ _ Hin He) as [v Hr].
    by eapply register_index_conflict.
  - intros e Hl Hs Hi Hc Hn. apply lookupEmail_None in Hl.
    rewrite (register_insert_throws _ _ _ _ Hq Hl Hs).
    by rewrite registerCatch_duplicate_key.
Qed.

(** C3: with a hasher whose compare accepts the hash of the same plaintext
    and an issuer whose decode inverts it, when no stored user has the
    email (before the request or inserted during it) and neither request
    meets a store failure, [register] answers
    201 with the new user and a token, and a [login] with the same email
    and password afterwards answers 200 with the sanitized user and a
    token that decodes to the identifier of the user [register] created. *)
Theorem register_then_login env1 env2 body (db : Db) :
  (∀ s p, bcryptCompare p (bcryptHash s p) = true) →
  (∀ uid r, decodeToken (generateToken uid r) = Some (uid, r)) →
  queryFault env1 = None → saveFault env1 = None →
  queryFault env2 = None → saveFault env2 = None →
  (∀ v, v ∈ db ++ racingInserts env1 → email v ≠ regEmail body) →
  ∃ newUser t1 seen t2,
    fst (register env1 body db) =
      sendSuccess (UserAndToken newUser t1) 201
        (Some "Registration successful")
    ∧ resId newUser = freshId env1
    ∧ fst (login env2 (mkLoginDTO (regEmail body) (regPassword body))
             (snd (register env1 body db))) =
        sendSuccess (UserAndToken seen t2) 200 (Some "Login successful")
    ∧ decodeToken t2 = Some (resId newUser, resRole newUser)
    ∧ resId seen = resId newUser
    ∧ resEmail seen = regEmail body.
Proof.
  intros Hhash Htok Hq1 Hs1 Hq2 Hs2 Hfree.
  apply lookupEmail_None in Hfree.
  rewrite (register_succeeds _ _ _ Hq1 Hs1 Hfree). simpl.
  set (u := created env1 body).
  assert (Hl : lookupEmail (regEmail body)
                 ((db ++ racingInserts env1) ++ [u]) = Some u).
  { rewrite lookupEmail_app, Hfree. unfold lookupEmail. simpl.
    by rewrite decide_True. }
  rewrite (login_succeeds env2 (mkLoginDTO (regEmail body) (regPassword body))
             _ u Hq2 Hl eq_refl (Hhash _ _) Hs2). simpl.
  eexists _, _, _, _. split; [reflexivity|]. split; [done|].
  split; [reflexivity|]. by rewrite Htok.
Qed.

(** C4: when one of [currentPassword] and [newPassword] is missing from a
    request to [updateProfile] (or is the empty string, which the handler
    reads as missing), as when exactly one of the two is sent, the
    password change is skipped altogether: every stored record keeps its
    identifier and its password hash, and every login that succeeded on
    the store before the request succeeds on the store after it. *)
Theorem updateProfile_one_password_is_noop env userId body (db : Db) :
  updCurrentPassword body = None ∨ updNewPassword body = None
  ∨ updCurrentPassword body = Some "" ∨ updNewPassword body = Some "" →
  password <$> snd (updateProfile env userId body db) = password <$> db
  ∧ _id <$> snd (updateProfile env userId body db) = _id <$> db
  ∧ (∀ env2 attempt,
       statusCode (fst (login env2 attempt db)) = 200 →
       statusCode
         (fst (login env2 attempt (snd (updateProfile env userId body db))))
         = 200).
Proof.
  intros Hone.
  assert (Hb : truthyStr (updNewPassword body)
               && truthyStr (updCurrentPassword body) = false).
  { destruct Hone as [Hc|[Hn|[Hc|Hn]]];
      rewrite ?Hc, ?Hn; simpl; solve [done | apply andb_false_r]. }
  destruct (updateProfile_no_password_change env userId body db Hb)
    as [->|(u & _ & ->)]; [done|].
  pose proof (passwordModified_named body u) as Hm.
  split; [by apply writeBack_password|].
  split; [by apply writeBack_id|].
  intros env2 attempt. by apply login_200_writeBack.
Qed.

(** C5: when a request to [updateProfile] supplies both [currentPassword]
    and [newPassword] (each a non-empty string: the handler, like the
    rest of this controller, reads an empty string as not supplied), and
    the current password does not match the stored hash of the
    authenticated user, the answer is 400, "Current password is
    incorrect", and the store is left as it was, so a name sent in the
    same request is not saved. *)
Theorem updateProfile_rejects_wrong_current env uid body (db : Db) u cur new :
  queryFault env = None →
  uid ≠ "" →
  lookupId uid db = Some u →
  updCurrentPassword body = Some cur → cur ≠ "" →
  updNewPassword body = Some new → new ≠ "" →
  bcryptCompare cur (password u) = false →
  updateProfile env (Some uid) body db =
    (sendError "Current password is incorrect" 400 None, db).
Proof.
  intros Hq Hne Hl Hc Hcne Hn Hnne Hm.
  apply (updateProfile_wrong_current _ _ _ _ u); try done.
  - rewrite Hn. simpl. apply String.eqb_neq in Hnne. by rewrite Hnne.
  - rewrite Hc. simpl. apply String.eqb_neq in Hcne. by rewrite Hcne.
  - by rewrite Hc.
Qed.

(** C6: for a stored user whose active flag is false, [login] with the
    email of that user answers 403, "Account is deactivated", whatever
    the password sent, and [getProfile] for the identifier of that user
    answers 403 as well; the store is left as it was. *)
Theorem deactivated_account_403 env body uid (db : Db) u :
  queryFault env = None →
  isActive u = false →
  (lookupEmail (loginEmail body) db = Some u →
     login env body db = (sendError "Account is deactivated" 403 None, db))
  ∧ (uid ≠ "" → lookupId uid db = Some u →
     getProfile env (Some uid) db =
       (sendError "Account is deactivated" 403 None, db)).
Proof.
  intros Hq Ha. split.
  - intros Hl. by eapply login_deactivated.
  - intros Hne Hl. by eapply getProfile_deactivated.
Qed.

(** C7, amended: for an active user whose password matches, [login] sets
    the last-login time and saves the document. When the save goes
    through, it answers 200, "Login successful", with the sanitized user
    (last login at the time of the request), a token issued for the
    identifier and role of the user, and the stored record has the new
    last-login time. When the save throws, it answers 500, "Login
    failed", and the store is left as it was. *)
Theorem login_saves_last_login env body (db : Db) u :
  queryFault env = None →
  lookupEmail (loginEmail body) db = Some u →
  isActive u = true →
  bcryptCompare (loginPassword body) (password u) = true →
  (saveFault env = None →
     login env body db =
       (sendSuccess
          (UserAndToken (toUserResponse (loggedIn env u))
             (generateToken (_id u) (role u)))
          200 (Some "Login successful"),
        writeBack env (setLastLogin (now env) (load true u)) db)
     ∧ resLastLogin (toUserResponse (loggedIn env u)) = Some (now env)
     ∧ lastLogin <$> lookupEmail (loginEmail body) (snd (login env body db))
         = Some (Some (now env)))
  ∧ (∀ e, saveFault env = Some e →
     login env body db = (sendError "Login failed" 500 None, db)).
Proof.
  intros Hq Hl Ha Hc. split.
  - intros Hs. rewrite (login_succeeds _ _ _ _ Hq Hl Ha Hc Hs). simpl.
    split; [done|]. split; [done|].
    by rewrite (lookupEmail_writeBack _ _ _ _ u).
  - intros e Hs. by eapply login_save_fails.
Qed.

End Claims.

(** *** The claims on the sample data, with the stand-in hasher and issuer *)

Section Samples.
#[local] Existing Instance demoHasher.
#[local] Existing Instance demoIssuer.

Lemma demo_compare_hash s p : bcryptCompare p (bcryptHash s p) = true.
Proof.
  simpl. induction s as [|c s IH]; simpl.
  - by rewrite String.eqb_refl.
  - rewrite IH. apply orb_true_r.
Qed.

Lemma demo_decode_generate uid r :
  decodeToken (generateToken uid r) = Some (uid, r).
Proof. reflexivity. Qed.

Lemma login_same_failure_witness :
  fst (login quietEnv (mkLoginDTO "nobody@b.com" "Passw0rd!") sampleDb) =
  fst (login quietEnv (mkLoginDTO "a@b.com" "wrong") sampleDb).
Proof.
  apply (login_same_failure quietEnv quietEnv
           (mkLoginDTO "nobody@b.com" "Passw0rd!")
           (mkLoginDTO "a@b.com" "wrong") sampleDb sampleDb asha);
    try reflexivity.
  by apply lookupEmail_None.
Defined.

Lemma register_duplicate_email_witness :
  register quietEnv (mkRegisterDTO "a@b.com" "Passw0rd!" "A" None) sampleDb =
    (sendError "Email already registered" 409 None, sampleDb)
  ∧ register racingEnv (mkRegisterDTO "c@b.com" "Passw0rd!" "C" None)
      sampleDb =
    (sendError "Email already registered" 409 None, sampleDb ++ [chandra]).
Proof.
  destruct (register_duplicate_email quietEnv
              (mkRegisterDTO "a@b.com" "Passw0rd!" "A" None) sampleDb asha
              eq_refl eq_refl) as (Hfound & _ & _).
  destruct (register_duplicate_email racingEnv
              (mkRegisterDTO "c@b.com" "Passw0rd!" "C" None) sampleDb chandra
              eq_refl eq_refl) as (_ & Hrace & _).
  split.
  - apply Hfound. apply list_elem_of_here.
  - apply Hrace; [|reflexivity|apply list_elem_of_here].
    by apply lookupEmail_None.
Defined.

Lemma register_then_login_witness :
  ∃ newUser t1 seen t2,
    fst (register quietEnv (mkRegisterDTO "d@b.com" "Passw0rd!" "D" None)
           sampleDb) =
      sendSuccess (UserAndToken newUser t1) 201
        (Some "Registration successful")
    ∧ resId newUser = "u9"
    ∧ fst (login quietEnv (mkLoginDTO "d@b.com" "Passw0rd!")
             (snd (register quietEnv
                     (mkRegisterDTO "d@b.com" "Passw0rd!" "D" None)
                     sampleDb))) =
        sendSuccess (UserAndToken seen t2) 200 (Some "Login successful")
    ∧ decodeToken t2 = Some (resId newUser, resRole newUser)
    ∧ resId seen = resId newUser
    ∧ resEmail seen = "d@b.com".
Proof.
  apply (register_then_login quietEnv quietEnv
           (mkRegisterDTO "d@b.com" "Passw0rd!" "D" None) sampleDb
           demo_compare_hash demo_decode_generate);
    try reflexivity.
  by apply lookupEmail_None.
Defined.

Lemma updateProfile_one_password_is_noop_witness :
  let body := mkUpdateProfileBody None None (Some "N3wPassw0rd!") in
  password <$> snd (updateProfile quietEnv (Some "u1") body sampleDb) =
    password <$> sampleDb
  ∧ statusCode
      (fst (login quietEnv (mkLoginDTO "a@b.com" "Passw0rd!")
              (snd (updateProfile quietEnv (Some "u1") body sampleDb)))) = 200.
Proof.
  intros body.
  destruct (updateProfile_one_password_is_noop quietEnv (Some "u1") body
              sampleDb) as (Hp & _ & Hlogin).
  - left. reflexivity.
  - split; [exact Hp|]. apply Hlogin. reflexivity.
Defined.

Lemma updateProfile_rejects_wrong_current_witness :
  updateProfile quietEnv (Some "u1")
    (mkUpdateProfileBody (Some "Mallory") (Some "wrong") (Some "N3wPassw0rd!"))
    sampleDb =
  (sendError "Current password is incorrect" 400 None, sampleDb).
Proof.
  apply (updateProfile_rejects_wrong_current quietEnv "u1"
           (mkUpdateProfileBody (Some "Mallory") (Some "wrong")
              (Some "N3wPassw0rd!"))
           sampleDb asha "wrong" "N3wPassw0rd!");
    (reflexivity || discriminate).
Defined.

Lemma deactivated_account_403_witness :
  login quietEnv (mkLoginDTO "b@b.com" "hunter22") sampleDb =
    (sendError "Account is deactivated" 403 None, sampleDb)
  ∧ getProfile quietEnv (Some "u2") sampleDb =
    (sendError "Account is deactivated" 403 None, sampleDb).
Proof.
  destruct (deactivated_account_403 quietEnv
              (mkLoginDTO "b@b.com" "hunter22") "u2" sampleDb binod
              eq_refl eq_refl) as [Hlogin Hprofile].
  split; [apply Hlogin; reflexivity|].
  apply Hprofile; [discriminate|reflexivity].
Defined.

(** C7, as the handler behaves: the user exists, is active and the
    password matches, the save of the last-login time is rejected, and
    the answer is 500, "Login failed". *)
Lemma login_save_rejected_is_500 :
  lookupEmail "a@b.com" sampleDb = Some asha
  ∧ isActive asha = true
  ∧ bcryptCompare "Passw0rd!" (password asha) = true
  ∧ is_Some (saveFault writeDownEnv)
  ∧ login writeDownEnv (mkLoginDTO "a@b.com" "Passw0rd!") sampleDb =
      (sendError "Login failed" 500 None, sampleDb).
Proof. repeat split; try reflexivity. by eexists. Qed.

Lemma login_saves_last_login_witness :
  statusCode (fst (login quietEnv (mkLoginDTO "a@b.com" "Passw0rd!")
                     sampleDb)) = 200
  ∧ lastLogin <$> lookupEmail "a@b.com"
      (snd (login quietEnv (mkLoginDTO "a@b.com" "Passw0rd!") sampleDb)) =
      Some (Some 10)
  ∧ login writeDownEnv (mkLoginDTO "a@b.com" "Passw0rd!") sampleDb =
      (sendError "Login failed" 500 None, sampleDb).
Proof.
  destruct (login_saves_last_login (hasher := demoHasher)
              (issuer := demoIssuer) quietEnv
              (mkLoginDTO "a@b.com" "Passw0rd!") sampleDb asha
              eq_refl eq_refl eq_refl eq_refl) as [Hok _].
  destruct (login_saves_last_login (hasher := demoHasher)
              (issuer := demoIssuer) writeDownEnv
              (mkLoginDTO "a@b.com" "Passw0rd!") sampleDb asha
              eq_refl eq_refl eq_refl eq_refl) as [_ Hdown].
  destruct (Hok eq_refl) as (Hres & _ & Hstored).
  split; [by rewrite Hres|]. split; [exact Hstored|].
  by apply (Hdown _ eq_refl).
Defined.

End Samples.

End AuthProps.

(** ** More on the guide handlers: delete, lookup after a write, listing *)

Module GuideMore.
Import Http Js Guides GuideProps.

Lemma strictEqStr_spec (v : option JValue) id :
  Is_true (strictEqStr v id) ↔ v = Some (JStr id).
Proof.
  unfold strictEqStr. destruct v as [[]|]; simpl; try (split; [done|congruence]).
  rewrite Is_true_true, String.eqb_eq. split; intros; congruence.
Qed.

Lemma findIndex_None id (store : Store) :
  findIndex id store = None ↔
  ∀ g : Guide, g ∈ store → g !! "_id" ≠ Some (JStr id).
Proof.
  unfold findIndex. rewrite list_find_None, Forall_forall.
  split; intros Hall g Hin; specialize (Hall g Hin);
    by rewrite strictEqStr_spec in *.
Qed.

Lemma findIndex_first id (store : Store) index old :
  findIndex id store = Some (index, old) →
  ∀ j (g : Guide), store !! j = Some g → (j < index)%nat →
    g !! "_id" ≠ Some (JStr id).
Proof.
  unfold findIndex. intros H j g Hj Hlt.
  apply list_find_Some in H as (_ & _ & Hfirst).
  specialize (Hfirst j g Hj Hlt). by rewrite strictEqStr_spec in Hfirst.
Qed.

(** Taking out, or replacing, an element that a search does not accept
    does not change what the search finds. *)
Lemma list_find_delete_other {A} (P : A → Prop) `{∀ x, Decision (P x)}
    (l : list A) i x :
  l !! i = Some x → ¬ P x →
  snd <$> list_find P (delete i l) = snd <$> list_find P l.
Proof.
  revert i. induction l as [|y l IH]; intros i Hi Hx; [done|].
  destruct i as [|i]; simpl in *.
  - injection Hi as ->. rewrite decide_False by done.
    by destruct (list_find P l) as [[]|].
  - case_decide; [done|]. specialize (IH i Hi Hx).
    destruct (list_find P (delete i l)) as [[]|],
      (list_find P l) as [[]|]; simpl in *; congruence.
Qed.

Lemma list_find_insert_other {A} (P : A → Prop) `{∀ x, Decision (P x)}
    (l : list A) i x y :
  l !! i = Some x → ¬ P x → ¬ P y →
  list_find P (<[i := y]> l) = list_find P l.
Proof.
  revert i. induction l as [|z l IH]; intros i Hi Hx Hy; [done|].
  destruct i as [|i]; simpl in *.
  - injection Hi as ->. by rewrite !decide_False by done.
  - case_decide; [done|]. by rewrite (IH i).
Qed.

Lemma getGuideById_found id (store : Store) index g :
  findIndex id store = Some (index, g) →
  getGuideById id store = sendSuccess g defaultStatus None.
Proof. intros H. unfold getGuideById. by rewrite H. Qed.

Lemma getGuideById_same_search id (s1 s2 : Store) :
  snd <$> findIndex id s1 = snd <$> findIndex id s2 →
  getGuideById id s1 = getGuideById id s2.
Proof.
  unfold getGuideById. intros H.
  destruct (findIndex id s1) as [[]|], (findIndex id s2) as [[]|];
    simpl in *; congruence.
Qed.

Lemma findIndex_app_fresh id (store : Store) (g : Guide) :
  (∀ h : Guide, h ∈ store → h !! "_id" ≠ Some (JStr id)) →
  g !! "_id" = Some (JStr id) →
  findIndex id (store ++ [g]) = Some (length store, g).
Proof.
  intros Hfresh Hg. apply findIndex_None in Hfresh. unfold findIndex in *.
  rewrite list_find_app_r by done. simpl.
  rewrite decide_True by (by apply strictEqStr_spec). done.
Qed.

Lemma findIndex_app_other id (store : Store) (g : Guide) :
  g !! "_id" ≠ Some (JStr id) →
  snd <$> findIndex id (store ++ [g]) = snd <$> findIndex id store.
Proof.
  intros Hg. unfold findIndex.
  destruct (list_find _ store) as [[i h]|] eqn:Hf.
  - by rewrite (list_find_app_l _ _ _ _ _ Hf).
  - rewrite list_find_app_r by done. simpl.
    rewrite decide_False by (by rewrite strictEqStr_spec). done.
Qed.

Lemma buildGuide_id id now (input : Obj) :
  buildGuide id now input !! "_id" =
    match input !! "_id" with Some v => Some v | None => Some (JStr id) end.
Proof.
  unfold buildGuide. rewrite !lookup_insert_ne by done.
  rewrite spread_lookup. by rewrite lookup_singleton_eq.
Qed.

Lemma findIndex_updated id now (updates : Obj) (store : Store) index old :
  findIndex id store = Some (index, old) →
  findIndex id (<[index := mergeGuide now old updates]> store) =
    Some (index, mergeGuide now old updates).
Proof.
  intros Hfind. pose proof (findIndex_first _ _ _ _ Hfind) as Hfirst.
  destruct (findIndex_Some _ _ _ _ Hfind) as [Hold Hid].
  unfold findIndex. apply list_find_Some. split; [|split].
  - apply list_lookup_insert_eq. by eapply lookup_lt_Some.
  - apply strictEqStr_spec. by rewrite mergeGuide_id.
  - intros j g Hj Hlt. rewrite list_lookup_insert_ne in Hj by lia.
    rewrite strictEqStr_spec. by eapply Hfirst.
Qed.

Lemma mergeGuide_absorbs now1 now2 (old updates : Obj) :
  mergeGuide now2 (mergeGuide now1 old updates) updates =
  mergeGuide now2 old updates.
Proof.
  apply map_eq. intros k.
  destruct (decide (k = "updatedAt")) as [->|Hu].
  { by rewrite !mergeGuide_updatedAt. }
  destruct (decide (k = "_id")) as [->|Hi].
  { by rewrite !mergeGuide_id. }
  destruct (decide (k = "createdAt")) as [->|Hc].
  { by rewrite !mergeGuide_createdAt. }
  rewrite !mergeGuide_other by done. by destruct (updates !! k).
Qed.

(** X1: [deleteGuide] for an identifier no stored guide has answers 404,
    "Guide not found", and leaves the store as it was; for one it finds, it
    answers 200 and takes out exactly the guide at the index found: the
    guides before it stay in place and the guides after it move up by
    one. *)
Theorem deleteGuide_removes_one id (store : Store) :
  ((∀ g : Guide, g ∈ store → g !! "_id" ≠ Some (JStr id)) →
     deleteGuide id store = (sendError "Guide not found" 404 None, store))
  ∧ (∀ index old, findIndex id store = Some (index, old) →
     fst (deleteGuide id store) =
       sendSuccess () 200 (Some "Guide profile deleted successfully")
     ∧ S (length (snd (deleteGuide id store))) = length store
     ∧ (∀ j, (j < index)%nat →
          snd (deleteGuide id store) !! j = store !! j)
     ∧ (∀ j, (index ≤ j)%nat →
          snd (deleteGuide id store) !! j = store !! S j)).
Proof.
  split.
  - intros Hnone. apply findIndex_None in Hnone.
    unfold deleteGuide. by rewrite Hnone.
  - intros index old Hfind.
    destruct (findIndex_Some _ _ _ _ Hfind) as [Hold _].
    unfold deleteGuide. rewrite Hfind. simpl.
    split; [done|]. split.
    + rewrite length_delete by (by eexists). apply lookup_lt_Some in Hold. lia.
    + split; intros j Hj.
      * by apply list_lookup_delete_lt.
      * by apply list_lookup_delete_ge.
Qed.

Lemma deleteGuide_removes_one_witness :
  deleteGuide "g9" sampleStore =
    (sendError "Guide not found" 404 None, sampleStore)
  ∧ snd (deleteGuide "g1" sampleStore) !! 0%nat = Some heritageGuide.
Proof.
  destruct (deleteGuide_removes_one "g9" sampleStore) as [Hnone _].
  destruct (deleteGuide_removes_one "g1" sampleStore) as [_ Hsome].
  split.
  - apply Hnone. by apply findIndex_None.
  - destruct (Hsome 0%nat wildlifeGuide eq_refl) as (_ & _ & _ & Hge).
    by rewrite (Hge 0%nat).
Defined.

(** X2: after [deleteGuide] took out the only guide with an identifier,
    [getGuideById] for that identifier answers 404; a lookup of any other
    identifier answers what it answered before the delete. *)
Theorem deleteGuide_then_get id (store : Store) index old :
  findIndex id store = Some (index, old) →
  ((∀ j (g : Guide), store !! j = Some g → g !! "_id" = Some (JStr id) →
      j = index) →
     getGuideById id (snd (deleteGuide id store)) =
       sendError "Guide not found" 404 None)
  ∧ (∀ other, other ≠ id →
     getGuideById other (snd (deleteGuide id store)) =
       getGuideById other store).
Proof.
  intros Hfind. destruct (findIndex_Some _ _ _ _ Hfind) as [Hold Hid].
  unfold deleteGuide. rewrite Hfind. simpl. split.
  - intros Huniq.
    assert (Hnone : findIndex id (delete index store) = None).
    { apply findIndex_None. intros g Hin Hg.
      apply list_elem_of_lookup in Hin as [j Hj].
      destruct (decide (j < index)%nat) as [Hlt|Hge].
      - rewrite list_lookup_delete_lt in Hj by done.
        specialize (Huniq j g Hj Hg). lia.
      - rewrite list_lookup_delete_ge in Hj by lia.
        specialize (Huniq (S j) g Hj Hg). lia. }
    unfold getGuideById. by rewrite Hnone.
  - intros other Hne. apply getGuideById_same_search. unfold findIndex.
    apply (list_find_delete_other _ _ _ old); [done|].
    rewrite strictEqStr_spec, Hid. congruence.
Qed.

Lemma deleteGuide_then_get_witness :
  getGuideById "g1" (snd (deleteGuide "g1" sampleStore)) =
    sendError "Guide not found" 404 None
  ∧ getGuideById "g2" (snd (deleteGuide "g1" sampleStore)) =
    getGuideById "g2" sampleStore.
Proof.
  destruct (deleteGuide_then_get "g1" sampleStore 0%nat wildlifeGuide eq_refl)
    as [Hgone Hother].
  split; [|by apply Hother].
  apply Hgone. intros [|[|j]] g Hj Hg; [done| |done].
  injection Hj as <-. discriminate Hg.
Defined.

(** X3: the guide an accepted [createGuide] stores takes its [_id] from the
    body when the body carries one and the generated identifier otherwise;
    its [createdAt] and [updatedAt] are the time of the request whatever
    the body carries, and every other key is the body's. *)
Theorem createGuide_identity_fields id now (input : Obj) (store : Store) :
  validateCreate input = [] →
  ∃ g : Guide,
    snd (createGuide id now input store) = store ++ [g]
    ∧ data (fst (createGuide id now input store)) = Some g
    ∧ g !! "_id" = match input !! "_id" with
                   | Some v => Some v
                   | None => Some (JStr id)
                   end
    ∧ g !! "createdAt" = Some (JDate now)
    ∧ g !! "updatedAt" = Some (JDate now)
    ∧ (∀ k, k ≠ "_id" → k ≠ "createdAt" → k ≠ "updatedAt" →
         g !! k = input !! k).
Proof.
  intros Hok. rewrite createGuide_accepted by done. simpl.
  exists (buildGuide id now input). split; [done|]. split; [done|].
  split; [apply buildGuide_id|]. unfold buildGuide.
  split; [by rewrite lookup_insert_ne, lookup_insert_eq|].
  split; [by rewrite lookup_insert_eq|].
  intros k H1 H2 H3. rewrite !lookup_insert_ne by done.
  rewrite spread_lookup, lookup_singleton_ne by done.
  by destruct (input !! k).
Qed.

Lemma createGuide_identity_fields_witness :
  ∃ g : Guide,
    snd (createGuide "g5" 7 (<["_id" := JStr "g1"]> noHalfDayInput)
           sampleStore) = sampleStore ++ [g]
    ∧ g !! "_id" = Some (JStr "g1")
    ∧ g !! "createdAt" = Some (JDate 7).
Proof.
  destruct (createGuide_identity_fields "g5" 7
              (<["_id" := JStr "g1"]> noHalfDayInput) sampleStore)
    as (g & Hs & _ & Hid & Hc & _); [by vm_compute|].
  exists g. split; [exact Hs|]. split; [|exact Hc].
  rewrite Hid. reflexivity.
Defined.

(** X4: after an accepted [createGuide] whose body has no [_id] and whose
    generated identifier no stored guide has, [getGuideById] for that
    identifier answers 200 with the guide created, and a lookup of any
    other identifier answers what it answered before. *)
Theorem createGuide_then_get id now (input : Obj) (store : Store) :
  validateCreate input = [] →
  input !! "_id" = None →
  (∀ g : Guide, g ∈ store → g !! "_id" ≠ Some (JStr id)) →
  getGuideById id (snd (createGuide id now input store)) =
    sendSuccess (buildGuide id now input) defaultStatus None
  ∧ (∀ other, other ≠ id →
     getGuideById other (snd (createGuide id now input store)) =
       getGuideById other store).
Proof.
  intros Hok Hnoid Hfresh. rewrite createGuide_accepted by done. simpl.
  assert (Hid : buildGuide id now input !! "_id" = Some (JStr id))
    by (by rewrite buildGuide_id, Hnoid).
  split.
  - eapply getGuideById_found. by apply findIndex_app_fresh.
  - intros other Hne. apply getGuideById_same_search.
    apply findIndex_app_other. rewrite Hid. congruence.
Qed.

Lemma createGuide_then_get_witness :
  getGuideById "g5" (snd (createGuide "g5" 7 noHalfDayInput sampleStore)) =
    sendSuccess (buildGuide "g5" 7 noHalfDayInput) defaultStatus None.
Proof.
  apply (createGuide_then_get "g5" 7 noHalfDayInput sampleStore);
    [reflexivity|reflexivity|].
  by apply findIndex_None.
Defined.

(** X5: [deleteGuide] undoes such a [createGuide]: when the body has no
    [_id] and no stored guide has the generated identifier, deleting that
    identifier right after the create gives back the store as it was. *)
Theorem createGuide_then_delete id now (input : Obj) (store : Store) :
  validateCreate input = [] →
  input !! "_id" = None →
  (∀ g : Guide, g ∈ store → g !! "_id" ≠ Some (JStr id)) →
  deleteGuide id (snd (createGuide id now input store)) =
    (sendSuccess () 200 (Some "Guide profile deleted successfully"), store).
Proof.
  intros Hok Hnoid Hfresh. rewrite createGuide_accepted by done. simpl.
  assert (Hid : buildGuide id now input !! "_id" = Some (JStr id))
    by (by rewrite buildGuide_id, Hnoid).
  unfold deleteGuide. rewrite (findIndex_app_fresh _ _ _ Hfresh Hid).
  f_equal. induction store as [|h store IH]; [done|]. simpl. f_equal.
  apply IH. intros g Hin. apply Hfresh. by apply list_elem_of_further.
Qed.

Lemma createGuide_then_delete_witness :
  snd (deleteGuide "g5" (snd (createGuide "g5" 7 noHalfDayInput sampleStore)))
    = sampleStore.
Proof.
  rewrite (createGuide_then_delete "g5" 7 noHalfDayInput sampleStore);
    [reflexivity|reflexivity|reflexivity|].
  by apply findIndex_None.
Defined.

(** X6: [updateGuide] for an identifier no stored guide has answers 404,
    "Guide not found", and leaves the store as it was; and whatever it
    answers, the store has as many guides after it as before. *)
Theorem updateGuide_not_found id now (updates : Obj) (store : Store) :
  ((∀ g : Guide, g ∈ store → g !! "_id" ≠ Some (JStr id)) →
     updateGuide id now updates store =
       (sendError "Guide not found" 404 None, store))
  ∧ length (snd (updateGuide id now updates store)) = length store.
Proof.
  split.
  - intros Hnone. apply findIndex_None in Hnone.
    unfold updateGuide. by rewrite Hnone.
  - unfold updateGuide. destruct (findIndex id store) as [[index old]|];
      simpl; [apply length_insert|done].
Qed.

Lemma updateGuide_not_found_witness :
  updateGuide "g9" 8 hostileUpdate sampleStore =
    (sendError "Guide not found" 404 None, sampleStore).
Proof.
  apply (proj1 (updateGuide_not_found "g9" 8 hostileUpdate sampleStore)).
  by apply findIndex_None.
Defined.

(** X7: after [updateGuide] found and rewrote a guide, [getGuideById] for
    the same identifier answers 200 with the merged guide, and a lookup of
    any other identifier answers what it answered before. *)
Theorem updateGuide_then_get id now (updates : Obj) (store : Store)
    index old :
  findIndex id store = Some (index, old) →
  getGuideById id (snd (updateGuide id now updates store)) =
    sendSuccess (mergeGuide now old updates) defaultStatus None
  ∧ (∀ other, other ≠ id →
     getGuideById other (snd (updateGuide id now updates store)) =
       getGuideById other store).
Proof.
  intros Hfind. destruct (findIndex_Some _ _ _ _ Hfind) as [Hold Hid].
  unfold updateGuide. rewrite Hfind. simpl. split.
  - eapply getGuideById_found. by apply findIndex_updated.
  - intros other Hne. apply getGuideById_same_search. unfold findIndex.
    rewrite (list_find_insert_other _ _ _ old); [done|done| |].
    + rewrite strictEqStr_spec, Hid. congruence.
    + rewrite strictEqStr_spec, mergeGuide_id, Hid. congruence.
Qed.

Lemma updateGuide_then_get_witness :
  getGuideById "g1" (snd (updateGuide "g1" 8 hostileUpdate sampleStore)) =
    sendSuccess (mergeGuide 8 wildlifeGuide hostileUpdate) defaultStatus None.
Proof.
  apply (updateGuide_then_get "g1" 8 hostileUpdate sampleStore 0%nat
           wildlifeGuide).
  reflexivity.
Defined.

(** X8: sending the same update again only moves [updatedAt]: the store
    after a second [updateGuide] with the same identifier and payload is
    the store a single [updateGuide] at the later time gives. *)
Theorem updateGuide_twice id now1 now2 (updates : Obj) (store : Store) :
  snd (updateGuide id now2 updates
         (snd (updateGuide id now1 updates store))) =
  snd (updateGuide id now2 updates store).
Proof.
  unfold updateGuide at 2 3.
  destruct (findIndex id store) as [[index old]|] eqn:Hfind; simpl.
  - unfold updateGuide. rewrite (findIndex_updated _ _ _ _ _ _ Hfind). simpl.
    rewrite mergeGuide_absorbs. apply list_insert_insert_eq.
  - unfold updateGuide. by rewrite Hfind.
Qed.

(** *** Listing *)

Lemma slice_window {A} (first count : Z) (l : list A) :
  0 ≤ first → 0 ≤ count →
  slice first (first + count) l =
    take (Z.to_nat count) (drop (Z.to_nat first) l).
Proof.
  intros Hf Hc. unfold slice, relIndex.
  destruct (Z.ltb_spec first 0) as [?|_]; [lia|].
  destruct (Z.ltb_spec (first + count) 0) as [?|_]; [lia|].
  destruct (decide (first ≤ Z.of_nat (length l))) as [Hin|Hout].
  - rewrite (Z.min_l first) by lia.
    destruct (decide (first + count ≤ Z.of_nat (length l))) as [Hle|Hgt].
    + rewrite Z.min_l by lia. f_equal. lia.
    + rewrite Z.min_r by lia.
      rewrite !take_ge; [done|rewrite length_drop; lia..].
  - rewrite !Z.min_r by lia. rewrite Z.sub_diag. simpl.
    rewrite (drop_ge l (Z.to_nat first)) by lia. by rewrite take_nil.
Qed.

Lemma filterThrowing_total {A} (p : A → option bool) (l : list A) :
  (∀ x, x ∈ l → is_Some (p x)) →
  filterThrowing p l = Some (filter (λ x, p x = Some true) l).
Proof.
  induction l as [|x l IH]; intros Hall; [done|]. simpl.
  destruct (Hall x (list_elem_of_here _ _)) as [b Hb]. rewrite Hb.
  rewrite IH by (intros y Hy; apply Hall; by apply list_elem_of_further).
  rewrite filter_cons. destruct b.
  - by rewrite decide_True by done.
  - by rewrite decide_False by congruence.
Qed.

Lemma filterThrowing_throws {A} (p : A → option bool) (l : list A) x :
  x ∈ l → p x = None → filterThrowing p l = None.
Proof.
  intros Hin Hx. induction Hin as [x l|x y l _ IH]; simpl.
  - by rewrite Hx.
  - destruct (p y); [|done]. by rewrite IH.
Qed.

Section ListingProps.
Context (toLowerCase : string → string).
Context {Meta : Type} (getPaginationMeta : Z → Z → Z → Meta).

Lemma someThrowing_strings wanted (xs : list JValue) :
  (∀ x, x ∈ xs → ∃ t, x = JStr t) →
  ∃ b, someThrowing (sameSpecialization toLowerCase wanted) xs = Some b
       ∧ (b = true ↔
          ∃ t, JStr t ∈ xs ∧ toLowerCase t = toLowerCase wanted).
Proof.
  induction xs as [|x xs IH]; intros Hstr.
  - exists false. split; [done|]. split; [done|].
    intros (t & Hin & _). by apply elem_of_nil in Hin.
  - destruct (Hstr x (list_elem_of_here _ _)) as [t ->].
    destruct IH as (b & Hb & Hiff).
    { intros y Hy. apply Hstr. by apply list_elem_of_further. }
    simpl. destruct (String.eqb_spec (toLowerCase t) (toLowerCase wanted))
      as [Heq|Hne].
    + exists true. split; [done|]. split; [|done]. intros _.
      exists t. split; [apply list_elem_of_here|done].
    + exists b. split; [done|]. rewrite Hiff. split.
      * intros (u & Hin & Hu). exists u.
        split; [by apply list_elem_of_further|done].
      * intros (u & Hin & Hu). exists u. split; [|done].
        apply elem_of_cons in Hin as [Hhead|Htail]; [|done].
        injection Hhead as ->. done.
Qed.

(** X9: without a specialization filter ([undefined] or the empty string),
    for a page from 1 on and a limit from 0 on, [getAllGuides] answers the
    guides of the store from position [(page - 1) * limit] on, [limit] of
    them at most (none when the page starts past the end), together with
    the pagination data for the size of the whole store. *)
Theorem getAllGuides_page page limit specialization (store : Store) :
  specialization = None ∨ specialization = Some "" →
  1 ≤ page → 0 ≤ limit →
  let window :=
    take (Z.to_nat limit) (drop (Z.to_nat ((page - 1) * limit)) store) in
  getAllGuides toLowerCase getPaginationMeta page limit specialization store =
    Some (sendSuccess
            (mkListing window
               (getPaginationMeta page limit (Z.of_nat (length store))))
            defaultStatus None)
  ∧ Z.of_nat (length window) ≤ limit
  ∧ (∀ k, (k < Z.to_nat limit)%nat →
       window !! k = store !! (Z.to_nat ((page - 1) * limit) + k)%nat).
Proof.
  intros Hspec Hpage Hlimit window.
  assert (Hfalsy : truthy (JStr <$> specialization) = false)
    by (by destruct Hspec as [->| ->]).
  unfold getAllGuides. rewrite Hfalsy. simpl.
  rewrite slice_window by nia. split; [done|]. split.
  - subst window. rewrite length_take. lia.
  - intros k Hk. subst window. rewrite lookup_take_lt by done.
    apply lookup_drop.
Qed.

(** X10: read one after the other, the unfiltered pages 1 to [n] of a
    listing with a fixed limit are the first [n * limit] guides of the
    store, in the order of the store: no guide is skipped and none is
    repeated. *)
Theorem getAllGuides_pages_cover limit (n : nat) (store : Store) :
  0 ≤ limit →
  mjoin ((λ i : nat,
            guidesOf (getAllGuides toLowerCase getPaginationMeta
                        (Z.of_nat (S i)) limit None store))
           <$> seq 0 n) =
  take (n * Z.to_nat limit) store.
Proof.
  intros Hlimit. induction n as [|n IH]; [done|].
  rewrite seq_S, fmap_app, join_app, IH. simpl.
  rewrite slice_window by nia. rewrite app_nil_r.
  replace (Z.to_nat ((Z.of_nat (S n) - 1) * limit))
    with (n * Z.to_nat limit)%nat by nia.
  rewrite take_take_drop. f_equal. lia.
Qed.

(** X11: when every stored guide has an array of strings under
    [specializations], a listing filtered by a non-empty specialization,
    read as page 1 with a limit that covers the store, answers 200 with
    exactly the store filtered by the handler's test, every kept guide as
    often and in the order it is stored, and with the pagination data for
    the number of guides kept; and the handler's test holds of a stored
    guide exactly when the guide has a specialization equal to the one
    asked for once both are lower-cased. *)
Theorem getAllGuides_filter limit wanted (store : Store) :
  (∀ g : Guide, g ∈ store →
     ∃ xs, g !! "specializations" = Some (JArr xs)
           ∧ ∀ x, x ∈ xs → ∃ t, x = JStr t) →
  wanted ≠ "" →
  Z.of_nat (length store) ≤ limit →
  let kept :=
    filter (λ g : Guide,
              hasSpecialization toLowerCase wanted g = Some true) store in
  getAllGuides toLowerCase getPaginationMeta 1 limit (Some wanted) store =
    Some (sendSuccess
            (mkListing kept
               (getPaginationMeta 1 limit (Z.of_nat (length kept))))
            defaultStatus None)
  ∧ (∀ g : Guide, g ∈ store →
       (hasSpecialization toLowerCase wanted g = Some true ↔
        ∃ xs t, g !! "specializations" = Some (JArr xs) ∧ JStr t ∈ xs ∧
                toLowerCase t = toLowerCase wanted))
  ∧ kept `sublist_of` store
  ∧ (∀ g : Guide, g ∈ kept ↔
       g ∈ store ∧
       ∃ xs t, g !! "specializations" = Some (JArr xs) ∧ JStr t ∈ xs ∧
               toLowerCase t = toLowerCase wanted).
Proof.
  intros Hwf Hne Hlimit kept.
  assert (Htruthy : truthy (JStr <$> Some wanted) = true).
  { simpl. apply String.eqb_neq in Hne. by rewrite Hne. }
  assert (Hsome : ∀ g : Guide, g ∈ store →
            is_Some (hasSpecialization toLowerCase wanted g)).
  { intros g Hg. destruct (Hwf g Hg) as (xs & Hxs & Hstr).
    unfold hasSpecialization. rewrite Hxs.
    destruct (someThrowing_strings wanted xs Hstr) as (b & -> & _).
    by eexists. }
  assert (Htest : ∀ g : Guide, g ∈ store →
            (hasSpecialization toLowerCase wanted g = Some true ↔
             ∃ xs t, g !! "specializations" = Some (JArr xs) ∧ JStr t ∈ xs ∧
                     toLowerCase t = toLowerCase wanted)).
  { intros g Hg. destruct (Hwf g Hg) as (xs & Hxs & Hstr).
    unfold hasSpecialization. rewrite Hxs.
    destruct (someThrowing_strings wanted xs Hstr) as (b & Hb & Hiff).
    rewrite Hb. split.
    - intros Hmatch. injection Hmatch as ->.
      destruct (proj1 Hiff eq_refl) as (t & Hin & Ht). by exists xs, t.
    - intros (xs' & t & Hxs' & Hin & Ht).
      assert (xs' = xs) as -> by congruence.
      f_equal. apply Hiff. by exists t. }
  assert (Hkept : kept `sublist_of` store) by apply sublist_filter.
  split; [|split; [done|split; [done|]]].
  - unfold getAllGuides. rewrite Htruthy. simpl.
    rewrite (filterThrowing_total _ _ Hsome). simpl. fold kept.
    replace ((1 - 1) * limit) with 0 by lia.
    rewrite (slice_window 0 limit) by lia. rewrite drop_0.
    rewrite take_ge by (apply sublist_length in Hkept; lia). done.
  - intros g. subst kept. rewrite list_elem_of_filter. split.
    + intros [Hmatch Hg]. split; [done|]. by apply Htest.
    + intros [Hg Hmatch]. split; [|done]. by apply Htest.
Qed.

(** X12: when some stored guide has no array under [specializations]
    (nothing, or a value that is not an array), every listing filtered by a
    non-empty specialization throws instead of answering, whatever the
    page and the limit. [createGuide] stores such guides, since it does
    not check the field. *)
Theorem getAllGuides_filter_throws page limit wanted (store : Store)
    (g : Guide) :
  g ∈ store →
  (∀ xs, g !! "specializations" ≠ Some (JArr xs)) →
  wanted ≠ "" →
  getAllGuides toLowerCase getPaginationMeta page limit (Some wanted) store =
    None.
Proof.
  intros Hg Hnot Hne.
  assert (Htruthy : truthy (JStr <$> Some wanted) = true).
  { simpl. apply String.eqb_neq in Hne. by rewrite Hne. }
  unfold getAllGuides. rewrite Htruthy. simpl.
  rewrite (filterThrowing_throws _ _ g); [done|done|].
  unfold hasSpecialization.
  destruct (g !! "specializations") as [[]|] eqn:Hs; try done.
  by destruct (Hnot xs).
Qed.

End ListingProps.

Lemma getAllGuides_page_witness :
  guidesOf (getAllGuides asciiLower plainMeta 2 1 None sampleStore) =
    [heritageGuide].
Proof.
  destruct (getAllGuides_page asciiLower plainMeta 2 1 None sampleStore)
    as (Hres & _); [by left|lia|lia|].
  rewrite Hres. reflexivity.
Defined.

Lemma getAllGuides_pages_cover_witness :
  guidesOf (getAllGuides asciiLower plainMeta 1 1 None sampleStore) ++
  guidesOf (getAllGuides asciiLower plainMeta 2 1 None sampleStore) =
  sampleStore.
Proof.
  pose proof (getAllGuides_pages_cover asciiLower plainMeta 1 2 sampleStore
                ltac:(lia)) as H.
  etrans; [|exact H]. reflexivity.
Defined.

Lemma getAllGuides_filter_witness :
  guidesOf (getAllGuides asciiLower plainMeta 1 10 (Some "WILDLIFE")
              (sampleStore ++ [wildlifeGuide])) =
    [wildlifeGuide; wildlifeGuide].
Proof.
  destruct (getAllGuides_filter asciiLower plainMeta 10 "WILDLIFE"
              (sampleStore ++ [wildlifeGuide]))
    as (Hres & _).
  - intros g Hg.
    assert (Hcases : g = wildlifeGuide ∨ g = heritageGuide).
    { apply elem_of_cons in Hg as [->|Hg]; [by left|].
      apply elem_of_cons in Hg as [->|Hg]; [by right|].
      apply list_elem_of_singleton in Hg as ->. by left. }
    destruct Hcases as [->| ->].
    + eexists. split; [reflexivity|]. intros x Hx.
      apply elem_of_cons in Hx as [->|Hx]; [by eexists|].
      apply list_elem_of_singleton in Hx as ->. by eexists.
    + eexists. split; [reflexivity|]. intros x Hx.
      apply list_elem_of_singleton in Hx as ->. by eexists.
  - discriminate.
  - simpl. lia.
  - rewrite Hres. reflexivity.
Defined.

Lemma getAllGuides_filter_throws_witness :
  statusCode (fst (createGuide "g5" 7 noHalfDayInput sampleStore)) = 201
  ∧ getAllGuides asciiLower plainMeta 1 10 (Some "wildlife")
      (snd (createGuide "g5" 7 noHalfDayInput sampleStore)) = None.
Proof.
  split; [reflexivity|].
  apply (getAllGuides_filter_throws asciiLower plainMeta 1 10 "wildlife" _
           (buildGuide "g5" 7 noHalfDayInput)).
  - simpl. do 2 apply list_elem_of_further. apply list_elem_of_here.
  - intros xs. discriminate.
  - discriminate.
Defined.

End GuideMore.

(** ** More on the authentication handlers *)

Module AuthMore.
Import Http Auth AuthProps.

Lemma lookupId_None uid (db : Db) :
  lookupId uid db = None ↔ ∀ u : User, u ∈ db → _id u ≠ uid.
Proof.
  unfold lookupId. rewrite fmap_None, list_find_None, Forall_forall. done.
Qed.

Lemma lookupId_Some uid (db : Db) (u : User) :
  lookupId uid db = Some u → u ∈ db ∧ _id u = uid.
Proof.
  unfold lookupId. intros Hl.
  destruct (list_find _ db) as [[i v]|] eqn:Hf; [|done].
  simpl in Hl. injection Hl as ->.
  apply list_find_Some in Hf as (Hi & He & _).
  split; [by eapply list_elem_of_lookup_2|done].
Qed.

Lemma lookupEmail_found mail (db : Db) (u : User) :
  lookupEmail mail db = Some u → u ∈ db ∧ email u = mail.
Proof.
  unfold lookupEmail. intros Hl.
  destruct (list_find _ db) as [[i v]|] eqn:Hf; [|done].
  simpl in Hl. injection Hl as ->.
  apply list_find_Some in Hf as (Hi & He & _).
  split; [by eapply list_elem_of_lookup_2|done].
Qed.

Lemma lookupId_rewritten uid (g : User → User) (db : Db) :
  (∀ u, _id (g u) = _id u) →
  lookupId uid (g <$> db) = g <$> lookupId uid db.
Proof.
  intros Hg. unfold lookupId. rewrite list_find_fmap.
  rewrite (list_find_ext _ (λ u : User, _id u = uid))
    by (intros u; simpl; by rewrite Hg).
  by destruct (list_find _ db) as [[i v]|].
Qed.

(** In a store whose identifiers are distinct, two records with the same
    identifier are the same record. *)
Lemma distinct_ids_same_record (db : Db) (v u : User) :
  NoDup (_id <$> db) → v ∈ db → u ∈ db → _id v = _id u → v = u.
Proof.
  intros Hnd Hv Hu Hid.
  apply list_elem_of_lookup in Hv as [i Hi], Hu as [j Hj].
  assert (i = j) as ->; [|congruence].
  apply (NoDup_lookup (_id <$> db) i j (_id v)); [done| |].
  - by rewrite list_lookup_fmap, Hi.
  - by rewrite list_lookup_fmap, Hj, Hid.
Qed.

Section More.
Context {hasher : PasswordHasher} {issuer : TokenIssuer}.

Ltac run_handler :=
  unfold tryCatch, getAuthenticatedUser, saveAndAnswer, findOne, findByEmail,
    findById, query, save, saveNew, interleave, comparePassword,
    mbind, mret, Try_bind, Try_ret.

Lemma lookupId_writeBack env d (db : Db) uid u :
  lookupId uid db = Some u →
  _id (doc d) = uid →
  lookupId uid (writeBack env d db) = Some (storedOfDoc env d u).
Proof.
  intros Hl Hid. destruct (lookupId_Some _ _ _ Hl) as [_ Hu].
  unfold writeBack.
  rewrite lookupId_rewritten by (intros v; by case_decide).
  rewrite Hl. simpl. rewrite decide_True by congruence. done.
Qed.

Lemma lookupId_writeBack_other env d (db : Db) uid :
  _id (doc d) ≠ uid →
  lookupId uid (writeBack env d db) = lookupId uid db.
Proof.
  intros Hne. unfold writeBack.
  rewrite lookupId_rewritten by (intros v; by case_decide).
  destruct (lookupId uid db) as [v|] eqn:Hl; [|done]. simpl.
  destruct (lookupId_Some _ _ _ Hl) as [_ Hv].
  rewrite decide_False by congruence. done.
Qed.

Lemma writeBack_frame env d (db : Db) :
  _id <$> writeBack env d db = _id <$> db
  ∧ email <$> writeBack env d db = email <$> db
  ∧ role <$> writeBack env d db = role <$> db
  ∧ isActive <$> writeBack env d db = isActive <$> db
  ∧ createdAt <$> writeBack env d db = createdAt <$> db.
Proof.
  unfold writeBack. rewrite <- !list_fmap_compose.
  repeat split; apply list_fmap_ext; intros i u _; simpl; by case_decide.
Qed.

Lemma registerCatch_status e :
  statusCode (registerCatch e) ≠ 201.
Proof.
  unfold registerCatch.
  destruct (isErrorInstance e && String.eqb (errName e) "ValidationError");
    [done|].
  by destruct (isErrorInstance e && bool_decide (errCode e = Some 11000)).
Qed.

(** What [register] leaves in the store, case by case. *)
Lemma register_store_cases env body (db : Db) :
  (statusCode (fst (register env body db)) ≠ 201
   ∧ (snd (register env body db) = db
      ∨ snd (register env body db) = db ++ racingInserts env))
  ∨ (queryFault env = None ∧ saveFault env = None
     ∧ lookupEmail (regEmail body) (db ++ racingInserts env) = None).
Proof.
  destruct (queryFault env) as [e|] eqn:Hq.
  { left. rewrite (register_query_fails _ _ _ _ Hq). simpl.
    split; [apply registerCatch_status|by left]. }
  destruct (lookupEmail (regEmail body) db) as [u|] eqn:Hl.
  { left. rewrite (register_precheck_conflict _ _ _ _ Hq Hl). simpl.
    split; [done|by left]. }
  destruct (saveFault env) as [e|] eqn:Hs.
  { left. rewrite (register_insert_throws _ _ _ _ Hq Hl Hs). simpl.
    split; [apply registerCatch_status|by right]. }
  destruct (lookupEmail (regEmail body) (racingInserts env)) as [u|] eqn:Hr.
  { left. rewrite (register_index_conflict _ _ _ _ Hq Hl Hs Hr). simpl.
    split; [done|by right]. }
  right. by rewrite lookupEmail_app, Hl, Hr.
Qed.

(** What [updateProfile] leaves in the store, case by case. *)
Lemma updateProfile_store_cases env userId body (db : Db) :
  (statusCode (fst (updateProfile env userId body db)) ≠ 200
   ∧ snd (updateProfile env userId body db) = db)
  ∨ ∃ u d,
      lookupId (strOf userId) db = Some u
      ∧ (d = named body (load true u)
         ∨ d = setPassword (strOf (updNewPassword body))
                 (named body (load true u)))
      ∧ updateProfile env userId body db =
          (sendSuccess (Profile (toUserResponse (afterSave env d))) 200
             (Some "Profile updated successfully"),
           writeBack env d db).
Proof.
  unfold updateProfile. run_handler.
  destruct (truthyStr userId); simpl; [|by left].
  destruct (queryFault env); simpl; [by left|].
  destruct (lookupId (strOf userId) db) as [u|] eqn:Hl; simpl; [|by left].
  fold (named body (load true u)).
  assert (Hpw : password (doc (named body (load true u))) = Some (password u)).
  { unfold named. by destruct (truthyStr (updName body)). }
  destruct (truthyStr (updNewPassword body)
            && truthyStr (updCurrentPassword body)); simpl.
  - rewrite Hpw.
    destruct (bcryptCompare (strOf (updCurrentPassword body)) (password u));
      simpl; [|by left].
    destruct (saveFault env); simpl; [by left|].
    right. exists u, (setPassword (strOf (updNewPassword body))
                        (named body (load true u))).
    split; [done|]. split; [by right|done].
  - destruct (saveFault env); simpl; [by left|].
    right. exists u, (named body (load true u)).
    split; [done|]. split; [by left|done].
Qed.

(** What [login] leaves in the store, case by case. *)
Lemma login_store_cases env body (db : Db) :
  (statusCode (fst (login env body db)) ≠ 200 ∧ snd (login env body db) = db)
  ∨ ∃ u, lookupEmail (loginEmail body) db = Some u
         ∧ isActive u = true
         ∧ bcryptCompare (loginPassword body) (password u) = true
         ∧ login env body db =
             (sendSuccess
                (UserAndToken (toUserResponse (loggedIn env u))
                   (generateToken (_id u) (role u)))
                200 (Some "Login successful"),
              writeBack env (setLastLogin (now env) (load true u)) db).
Proof.
  destruct (queryFault env) as [e|] eqn:Hq.
  { left. by rewrite (login_query_fails _ _ _ _ Hq). }
  destruct (lookupEmail (loginEmail body) db) as [u|] eqn:Hl.
  2:{ left. by rewrite login_unknown_email. }
  destruct (isActive u) eqn:Ha.
  2:{ left. by rewrite (login_deactivated _ _ _ _ Hq Hl Ha). }
  destruct (bcryptCompare (loginPassword body) (password u)) eqn:Hc.
  2:{ left. by rewrite (login_wrong_password _ _ _ _ Hq Hl Ha Hc). }
  destruct (saveFault env) as [e|] eqn:Hs.
  { left. by rewrite (login_save_fails _ _ _ _ _ Hq Hl Ha Hc Hs). }
  right. exists u. split; [done|]. split; [done|]. split; [done|].
  by apply login_succeeds.
Qed.

(** X13: without an identity on the request ([userId] missing or empty),
    [getProfile] and [updateProfile] answer 401, "User not found in
    request", without querying the store, which is left as it was. *)
Theorem missing_identity_401 env userId body (db : Db) :
  userId = None ∨ userId = Some "" →
  getProfile env userId db =
    (sendError "User not found in request" 401 None, db)
  ∧ updateProfile env userId body db =
    (sendError "User not found in request" 401 None, db).
Proof.
  intros Hid. unfold getProfile, updateProfile. run_handler.
  by destruct Hid as [->| ->].
Qed.

(** X14: with an identity that no stored user has (the token of a user who
    is gone), [getProfile] and [updateProfile] answer 404, "User not
    found", and leave the store as it was. *)
Theorem unknown_identity_404 env uid body (db : Db) :
  queryFault env = None →
  uid ≠ "" →
  (∀ u : User, u ∈ db → _id u ≠ uid) →
  getProfile env (Some uid) db = (sendError "User not found" 404 None, db)
  ∧ updateProfile env (Some uid) body db =
    (sendError "User not found" 404 None, db).
Proof.
  intros Hq Hne Hnone. apply lookupId_None in Hnone.
  apply String.eqb_neq in Hne.
  unfold getProfile, updateProfile. run_handler. simpl.
  rewrite Hne, Hq. simpl. by rewrite Hnone.
Qed.

(** X15: [getProfile] never writes: the store after it is the store before
    it, whatever it answers. For an active user it answers 200 with the
    sanitized fields of the stored record; when the query is rejected it
    answers 500, "Failed to get profile". *)
Theorem getProfile_reads_only env userId (db : Db) :
  snd (getProfile env userId db) = db
  ∧ (∀ uid u, userId = Some uid → uid ≠ "" → queryFault env = None →
       lookupId uid db = Some u → isActive u = true →
       fst (getProfile env userId db) =
         sendSuccess
           (Profile (mkUserResponse (_id u) (email u) (name u) (role u) true
                       (createdAt u) (lastLogin u)))
           defaultStatus None)
  ∧ (∀ uid e, userId = Some uid → uid ≠ "" → queryFault env = Some e →
       fst (getProfile env userId db) =
         sendError "Failed to get profile" 500 None).
Proof.
  split; [|split].
  - unfold getProfile. run_handler.
    destruct (truthyStr userId); simpl; [|done].
    destruct (queryFault env); simpl; [done|].
    destruct (lookupId (strOf userId) db) as [u|]; simpl; [|done].
    by destruct (isActive u).
  - intros uid u -> Hne Hq Hl Ha. apply String.eqb_neq in Hne.
    unfold getProfile. run_handler. simpl. rewrite Hne, Hq. simpl.
    rewrite Hl. simpl. rewrite Ha. simpl.
    unfold toUserResponse. simpl. by rewrite Ha.
  - intros uid e -> Hne Hq. apply String.eqb_neq in Hne.
    unfold getProfile. run_handler. simpl. by rewrite Hne, Hq.
Qed.

(** X16: [register] adds a record only when it answers 201. Then one
    record is appended to the store, with the identifier drawn for the
    request and the email and name of the body, active, with the role of
    the body or ["customer"]; no other stored record has its email, so a
    lookup of that email finds it; and the answer carries that user with
    a token for the new identifier and role. With any other answer the
    store holds no record of this request. *)
Theorem register_inserts_only_on_201 env body (db : Db) :
  (fst (register env body db) =
     sendSuccess
       (UserAndToken
          (mkUserResponse (freshId env) (regEmail body) (regName body)
             (orElse (regRole body) "customer") true (now env) None)
          (generateToken (freshId env) (orElse (regRole body) "customer")))
       201 (Some "Registration successful")
   ∧ (∃ u : User,
        snd (register env body db) = (db ++ racingInserts env) ++ [u]
        ∧ _id u = freshId env
        ∧ email u = regEmail body
        ∧ name u = regName body
        ∧ role u = orElse (regRole body) "customer"
        ∧ isActive u = true
        ∧ lookupEmail (regEmail body) (snd (register env body db)) = Some u)
   ∧ (∀ v : User, v ∈ db ++ racingInserts env → email v ≠ regEmail body))
  ∨ (statusCode (fst (register env body db)) ≠ 201
     ∧ (snd (register env body db) = db
        ∨ snd (register env body db) = db ++ racingInserts env)).
Proof.
  destruct (register_store_cases env body db)
    as [Hfail|(Hq & Hs & Hfree)]; [by right|].
  left. rewrite (register_succeeds _ _ _ Hq Hs Hfree). simpl.
  split; [done|]. split; [|by apply lookupEmail_None].
  exists (created env body). repeat split; try done.
  rewrite lookupEmail_app, Hfree. unfold lookupEmail. simpl.
  by rewrite decide_True.
Qed.

(** X17: when the insert of [register] throws, the answer follows the
    error: a Mongoose validation error gives 400, "Validation failed",
    with its field errors (also when it carries the code 11000); a value
    that is not an [Error], or an error that is neither a validation error
    nor a duplicate key, gives 500, "Registration failed". No record is
    added. *)
Theorem register_thrown_errors env body (db : Db) e :
  queryFault env = None →
  (∀ v : User, v ∈ db → email v ≠ regEmail body) →
  saveFault env = Some e →
  snd (register env body db) = db ++ racingInserts env
  ∧ (isErrorInstance e = true → errName e = "ValidationError" →
       fst (register env body db) =
         sendError "Validation failed" 400 (Some (errFields e)))
  ∧ (isErrorInstance e = false
     ∨ (errName e ≠ "ValidationError" ∧ errCode e ≠ Some 11000) →
       fst (register env body db) =
         sendError "Registration failed" 500 None).
Proof.
  intros Hq Hfree Hs. apply lookupEmail_None in Hfree.
  rewrite (register_insert_throws _ _ _ _ Hq Hfree Hs). simpl.
  split; [done|]. unfold registerCatch. split.
  - intros Hi Hn. by rewrite Hi, Hn.
  - intros [Hi|[Hn Hc]].
    + by rewrite Hi.
    + apply String.eqb_neq in Hn. rewrite Hn, andb_false_r.
      rewrite bool_decide_eq_false_2 by done. by rewrite andb_false_r.
Qed.

(** X18: [register] keeps the emails of the store distinct: when no two
    records have the same email as the insert is tried, no two have after
    the request, whatever it answered. *)
Theorem register_keeps_emails_distinct env body (db : Db) :
  NoDup (email <$> (db ++ racingInserts env)) →
  NoDup (email <$> snd (register env body db)).
Proof.
  intros Hnd.
  destruct (register_store_cases env body db)
    as [[_ [-> | ->]]|(Hq & Hs & Hfree)].
  - rewrite fmap_app in Hnd. by apply NoDup_app in Hnd as [? _].
  - done.
  - rewrite (register_succeeds _ _ _ Hq Hs Hfree). simpl.
    rewrite fmap_app. apply NoDup_app. split; [done|]. split.
    + intros mail Hin Hnew. apply list_elem_of_singleton in Hnew.
      apply list_elem_of_fmap in Hin as (v & -> & Hv).
      rewrite lookupEmail_None in Hfree. by apply (Hfree v).
    + apply NoDup_singleton.
Qed.

(** X19: [login] touches nothing but the last-login and update times: the
    identifier, email, password hash, role, active flag and creation time
    of every stored record are the same after it, and when it does not
    answer 200 the whole store is. In a store whose identifiers are
    distinct, the name of every record is the same after it too, and
    every record with another email than the one of the request is left
    exactly as it was. *)
Theorem login_changes_only_times env body (db : Db) :
  _id <$> snd (login env body db) = _id <$> db
  ∧ email <$> snd (login env body db) = email <$> db
  ∧ password <$> snd (login env body db) = password <$> db
  ∧ role <$> snd (login env body db) = role <$> db
  ∧ isActive <$> snd (login env body db) = isActive <$> db
  ∧ createdAt <$> snd (login env body db) = createdAt <$> db
  ∧ (statusCode (fst (login env body db)) ≠ 200 →
       snd (login env body db) = db)
  ∧ (NoDup (_id <$> db) →
       name <$> snd (login env body db) = name <$> db
       ∧ ∀ i (v : User), db !! i = Some v → email v ≠ loginEmail body →
           snd (login env body db) !! i = Some v).
Proof.
  destruct (login_store_cases env body db)
    as [[Hst ->]|(u & Hl & _ & _ & ->)]; [done|]. simpl.
  destruct (writeBack_frame env (setLastLogin (now env) (load true u)) db)
    as (H1 & H2 & H3 & H4 & H5).
  destruct (lookupEmail_found _ _ _ Hl) as [Hin Hmail].
  repeat split; try done.
  - by apply writeBack_password.
  - unfold writeBack. rewrite <- list_fmap_compose.
    apply list_fmap_ext. intros i v Hv. simpl.
    case_decide as Hid; [|done]. simpl.
    apply list_elem_of_lookup_2 in Hv.
    by rewrite (distinct_ids_same_record db v u).
  - intros i v Hv Hother. unfold writeBack.
    rewrite list_lookup_fmap, Hv. simpl.
    case_decide as Hid; [|done]. simpl in Hid.
    apply list_elem_of_lookup_2 in Hv.
    rewrite (distinct_ids_same_record db v u) in Hother by done.
    congruence.
Qed.

(** X20: a login that succeeded can be repeated: on the store it left, a
    login with the same email and password whose query and write go
    through answers 200 again. *)
Theorem login_again_succeeds env env2 body (db : Db) :
  statusCode (fst (login env body db)) = 200 →
  queryFault env2 = None →
  saveFault env2 = None →
  statusCode (fst (login env2 body (snd (login env body db)))) = 200.
Proof.
  intros Hfirst Hq2 Hs2.
  destruct (login_store_cases env body db)
    as [[Hst _]|(u & Hl & Ha & Hc & Heq)]; [done|].
  rewrite Heq. simpl. apply login_200_writeBack; [done|].
  apply login_200_iff. split; [done|]. split; [done|]. by exists u.
Qed.

(** X21: [login] answers 200 only for a stored, active user with the email
    of the request whose hash the password of the request matches, and
    then the answer is the sanitized record of that user with the time of
    the request as last login and a token for the identifier and role of
    that user. *)
Theorem login_grants_only_valid env body (db : Db) :
  statusCode (fst (login env body db)) = 200 →
  ∃ u : User,
    u ∈ db
    ∧ email u = loginEmail body
    ∧ isActive u = true
    ∧ bcryptCompare (loginPassword body) (password u) = true
    ∧ fst (login env body db) =
        sendSuccess
          (UserAndToken
             (mkUserResponse (_id u) (email u) (name u) (role u) true
                (createdAt u) (Some (now env)))
             (generateToken (_id u) (role u)))
          200 (Some "Login successful").
Proof.
  intros Hst.
  destruct (login_store_cases env body db)
    as [[Hno _]|(u & Hl & Ha & Hc & Heq)]; [done|].
  destruct (lookupEmail_found _ _ _ Hl) as [Hin He].
  exists u. split; [done|]. split; [done|]. split; [done|]. split; [done|].
  rewrite Heq. simpl. unfold toUserResponse, loggedIn. simpl.
  by rewrite Ha.
Qed.

Lemma named_fields body (u : User) :
  _id (doc (named body (load true u))) = _id u
  ∧ passwordModified (named body (load true u)) = false
  ∧ name (doc (named body (load true u))) =
      (if truthyStr (updName body) then strOf (updName body) else name u).
Proof. unfold named. by destruct (truthyStr (updName body)). Qed.

(** X22: [updateProfile] with a non-empty new password and the matching
    current password answers 200 and stores the hash of the new password
    for that user. On the store it leaves, for a hasher that accepts the
    new plaintext against that hash and rejects the old one, a login of
    that user with the new password answers 200 and a login with the old
    password answers 401, "Invalid credentials". *)
Theorem updateProfile_changes_password env env2 uid body (db : Db) u
    cur new :
  queryFault env = None → saveFault env = None →
  uid ≠ "" →
  lookupId uid db = Some u →
  updCurrentPassword body = Some cur → cur ≠ "" →
  updNewPassword body = Some new → new ≠ "" →
  bcryptCompare cur (password u) = true →
  statusCode (fst (updateProfile env (Some uid) body db)) = 200
  ∧ password <$> lookupId uid (snd (updateProfile env (Some uid) body db)) =
      Some (bcryptHash (salt env) new)
  ∧ (lookupEmail (email u) db = Some u → isActive u = true →
     queryFault env2 = None → saveFault env2 = None →
     (bcryptCompare new (bcryptHash (salt env) new) = true →
        statusCode
          (fst (login env2 (mkLoginDTO (email u) new)
                  (snd (updateProfile env (Some uid) body db)))) = 200)
     ∧ (bcryptCompare cur (bcryptHash (salt env) new) = false →
        fst (login env2 (mkLoginDTO (email u) cur)
               (snd (updateProfile env (Some uid) body db))) =
          sendError "Invalid credentials" 401 None)).
Proof.
  intros Hq Hs Hne Hl Hc Hcne Hn Hnne Hm.
  destruct (lookupId_Some _ _ _ Hl) as [_ Hid].
  destruct (named_fields body u) as (Hnid & _ & _).
  set (d := setPassword new (named body (load true u))).
  assert (Hrun : updateProfile env (Some uid) body db =
            (sendSuccess (Profile (toUserResponse (afterSave env d))) 200
               (Some "Profile updated successfully"),
             writeBack env d db)).
  { apply String.eqb_neq in Hne, Hcne, Hnne.
    unfold updateProfile. run_handler. simpl. rewrite Hne, Hq. simpl.
    rewrite Hl. simpl. rewrite Hn, Hc. simpl. rewrite Hnne, Hcne. simpl.
    fold (named body (load true u)).
    assert (Hpw : password (doc (named body (load true u))) =
                    Some (password u))
      by (unfold named; by destruct (truthyStr (updName body))).
    rewrite Hpw, Hm. simpl. by rewrite Hs. }
  assert (Hstored : password (storedOfDoc env d u) = bcryptHash (salt env) new)
    by done.
  rewrite Hrun. simpl. split; [done|]. split.
  - rewrite (lookupId_writeBack env d db uid u Hl) by (simpl; congruence).
    by rewrite <- Hstored.
  - intros Hmail Ha Hq2 Hs2.
    assert (Hfound : lookupEmail (email u) (writeBack env d db) =
                       Some (storedOfDoc env d u))
      by (apply lookupEmail_writeBack; [done|simpl; congruence]).
    split.
    + intros Hok. apply login_200_iff. split; [done|]. split; [done|].
      exists (storedOfDoc env d u).
      split; [exact Hfound|]. split; [exact Ha|]. by rewrite Hstored.
    + intros Hbad.
      rewrite (login_wrong_password env2 (mkLoginDTO (email u) cur) _
                 (storedOfDoc env d u) Hq2 Hfound Ha); [done|].
      by rewrite Hstored.
Qed.

(** X23: [updateProfile] never changes who a record belongs to: the
    identifier, email, role, active flag and creation time of every stored
    record are the same after it, and when it does not answer 200 the
    whole store is, the name included. *)
Theorem updateProfile_frame env userId body (db : Db) :
  _id <$> snd (updateProfile env userId body db) = _id <$> db
  ∧ email <$> snd (updateProfile env userId body db) = email <$> db
  ∧ role <$> snd (updateProfile env userId body db) = role <$> db
  ∧ isActive <$> snd (updateProfile env userId body db) = isActive <$> db
  ∧ createdAt <$> snd (updateProfile env userId body db) = createdAt <$> db
  ∧ (statusCode (fst (updateProfile env userId body db)) ≠ 200 →
       snd (updateProfile env userId body db) = db).
Proof.
  destruct (updateProfile_store_cases env userId body db)
    as [[Hst ->]|(u & d & _ & _ & ->)]; [done|]. simpl.
  destruct (writeBack_frame env d db) as (H1 & H2 & H3 & H4 & H5).
  repeat split; done.
Qed.

(** X24: the name of [updateProfile]. A request without a name, or with
    the empty string as name, leaves the stored name of every user as it
    was, whatever else it changes; a request with a non-empty name that
    is answered 200 stores that name for the user and answers with it. *)
Theorem updateProfile_name env userId body (db : Db) :
  (truthyStr (updName body) = false →
     ∀ uid, name <$> lookupId uid (snd (updateProfile env userId body db)) =
            name <$> lookupId uid db)
  ∧ (∀ uid n, userId = Some uid → updName body = Some n → n ≠ "" →
       statusCode (fst (updateProfile env userId body db)) = 200 →
       name <$> lookupId uid (snd (updateProfile env userId body db)) =
         Some n
       ∧ ∃ r, data (fst (updateProfile env userId body db)) =
                Some (Profile r)
              ∧ resName r = n).
Proof.
  destruct (updateProfile_store_cases env userId body db)
    as [[Hst Hdb]|(u & d & Hl & Hd & Heq)].
  { split; [intros _ uid; by rewrite Hdb|]. by intros uid n _ _ _ H200. }
  destruct (lookupId_Some _ _ _ Hl) as [_ Hid].
  destruct (named_fields body u) as (Hnid & _ & Hname).
  assert (Hdid : _id (doc d) = strOf userId)
    by (destruct Hd as [->| ->]; simpl; congruence).
  assert (Hdname : name (doc d) =
            if truthyStr (updName body) then strOf (updName body)
            else name u)
    by (destruct Hd as [->| ->]; simpl; congruence).
  rewrite Heq. simpl. split.
  - intros Hfalsy uid. rewrite Hfalsy in Hdname.
    destruct (decide (strOf userId = uid)) as [<-|Hother].
    + rewrite (lookupId_writeBack env d db _ u Hl Hdid), Hl. simpl.
      by rewrite Hdname.
    + rewrite lookupId_writeBack_other by congruence. done.
  - intros uid n -> Hn Hne _. simpl in *.
    apply String.eqb_neq in Hne. rewrite Hn in Hdname. simpl in Hdname.
    rewrite Hne in Hdname. simpl in Hdname. split.
    + rewrite (lookupId_writeBack env d db _ u Hl Hdid). simpl.
      by rewrite Hdname.
    + eexists. split; [reflexivity|]. simpl. exact Hdname.
Qed.

End More.

(** *** On the sample data, with the stand-in hasher and issuer *)

Section MoreSamples.
#[local] Existing Instance demoHasher.
#[local] Existing Instance demoIssuer.

Lemma missing_identity_401_witness :
  getProfile writeDownEnv (Some "") sampleDb =
    (sendError "User not found in request" 401 None, sampleDb).
Proof.
  apply (missing_identity_401 writeDownEnv (Some "")
           (mkUpdateProfileBody None None None) sampleDb).
  by right.
Defined.

Lemma unknown_identity_404_witness :
  updateProfile quietEnv (Some "u5")
    (mkUpdateProfileBody (Some "Eve") None None) sampleDb =
    (sendError "User not found" 404 None, sampleDb).
Proof.
  apply (unknown_identity_404 quietEnv "u5"
           (mkUpdateProfileBody (Some "Eve") None None) sampleDb);
    [reflexivity|discriminate|].
  by apply lookupId_None.
Defined.

Lemma getProfile_reads_only_witness :
  getProfile quietEnv (Some "u1") sampleDb =
    (sendSuccess
       (Profile (mkUserResponse "u1" "a@b.com" "A" "customer" true 1 None))
       defaultStatus None,
     sampleDb).
Proof.
  destruct (getProfile_reads_only (issuer := demoIssuer) quietEnv
              (Some "u1") sampleDb)
    as (Hstore & Hok & _).
  apply injective_projections; cbn [fst snd]; [|exact Hstore].
  apply (Hok "u1" asha); try reflexivity. discriminate.
Defined.

Lemma register_thrown_errors_witness :
  register
    (mkEnv 10 "u9" "s" None
       (Some (mkJsError true "ValidationError" None
                [mkFieldError "name" "Name is required"])) [])
    (mkRegisterDTO "d@b.com" "Passw0rd!" "" None) sampleDb =
  (sendError "Validation failed" 400
     (Some [mkFieldError "name" "Name is required"]), sampleDb).
Proof.
  destruct (register_thrown_errors (hasher := demoHasher)
              (issuer := demoIssuer)
              (mkEnv 10 "u9" "s" None
                 (Some (mkJsError true "ValidationError" None
                          [mkFieldError "name" "Name is required"])) [])
              (mkRegisterDTO "d@b.com" "Passw0rd!" "" None) sampleDb
              (mkJsError true "ValidationError" None
                 [mkFieldError "name" "Name is required"]))
    as (Hstore & Hval & _); [reflexivity|by apply lookupEmail_None|reflexivity|].
  rewrite (surjective_pairing (register _ _ sampleDb)).
  rewrite Hstore, Hval by reflexivity. reflexivity.
Defined.

Lemma register_keeps_emails_distinct_witness :
  NoDup (email <$> snd (register racingEnv
                          (mkRegisterDTO "d@b.com" "Passw0rd!" "D" None)
                          sampleDb)).
Proof.
  apply (register_keeps_emails_distinct racingEnv
           (mkRegisterDTO "d@b.com" "Passw0rd!" "D" None) sampleDb).
  apply (bool_decide_unpack _). by vm_compute.
Defined.

Lemma login_changes_only_times_witness :
  password <$> snd (login quietEnv (mkLoginDTO "a@b.com" "Passw0rd!")
                      sampleDb) = password <$> sampleDb
  ∧ name <$> snd (login quietEnv (mkLoginDTO "a@b.com" "Passw0rd!")
                    sampleDb) = name <$> sampleDb
  ∧ snd (login quietEnv (mkLoginDTO "a@b.com" "Passw0rd!") sampleDb)
      !! 1%nat = Some binod
  ∧ snd (login quietEnv (mkLoginDTO "a@b.com" "wrong") sampleDb) = sampleDb.
Proof.
  destruct (login_changes_only_times (hasher := demoHasher)
              (issuer := demoIssuer) quietEnv
              (mkLoginDTO "a@b.com" "Passw0rd!") sampleDb)
    as (_ & _ & Hpw & _ & _ & _ & _ & Hdistinct).
  destruct (login_changes_only_times (hasher := demoHasher)
              (issuer := demoIssuer) quietEnv
              (mkLoginDTO "a@b.com" "wrong") sampleDb)
    as (_ & _ & _ & _ & _ & _ & Hsame & _).
  destruct Hdistinct as [Hname Hothers].
  { apply (bool_decide_unpack _). by vm_compute. }
  split; [exact Hpw|]. split; [exact Hname|].
  split; [apply Hothers; [reflexivity|discriminate]|].
  apply Hsame. discriminate.
Defined.

Lemma login_again_succeeds_witness :
  statusCode
    (fst (login quietEnv (mkLoginDTO "a@b.com" "Passw0rd!")
            (snd (login quietEnv (mkLoginDTO "a@b.com" "Passw0rd!")
                    sampleDb)))) = 200.
Proof.
  apply (login_again_succeeds quietEnv quietEnv
           (mkLoginDTO "a@b.com" "Passw0rd!") sampleDb); reflexivity.
Defined.

Lemma login_grants_only_valid_witness :
  ∃ u : User,
    u ∈ sampleDb
    ∧ email u = "a@b.com"
    ∧ isActive u = true
    ∧ bcryptCompare "Passw0rd!" (password u) = true
    ∧ fst (login quietEnv (mkLoginDTO "a@b.com" "Passw0rd!") sampleDb) =
        sendSuccess
          (UserAndToken
             (mkUserResponse (_id u) (email u) (name u) (role u) true
                (createdAt u) (Some 10))
             (generateToken (_id u) (role u)))
          200 (Some "Login successful").
Proof.
  apply (login_grants_only_valid quietEnv
           (mkLoginDTO "a@b.com" "Passw0rd!") sampleDb).
  reflexivity.
Defined.

Lemma updateProfile_changes_password_witness :
  let body := mkUpdateProfileBody None (Some "Passw0rd!")
                (Some "N3wPassw0rd!") in
  let db' := snd (updateProfile quietEnv (Some "u1") body sampleDb) in
  password <$> lookupId "u1" db' = Some "s$N3wPassw0rd!"
  ∧ statusCode (fst (login quietEnv (mkLoginDTO "a@b.com" "N3wPassw0rd!")
                       db')) = 200
  ∧ fst (login quietEnv (mkLoginDTO "a@b.com" "Passw0rd!") db') =
      sendError "Invalid credentials" 401 None.
Proof.
  intros body db'.
  destruct (updateProfile_changes_password (hasher := demoHasher)
              (issuer := demoIssuer) quietEnv quietEnv "u1" body sampleDb
              asha "Passw0rd!" "N3wPassw0rd!")
    as (_ & Hhash & Hlogin); try reflexivity; try discriminate.
  destruct Hlogin as [Hnew Hold]; try reflexivity.
  split; [exact Hhash|]. split; [by apply Hnew|by apply Hold].
Defined.

Lemma updateProfile_frame_witness :
  snd (updateProfile quietEnv (Some "u1")
         (mkUpdateProfileBody (Some "Mallory") (Some "wrong")
            (Some "N3wPassw0rd!"))
         sampleDb) = sampleDb.
Proof.
  destruct (updateProfile_frame (hasher := demoHasher)
              (issuer := demoIssuer) quietEnv (Some "u1")
              (mkUpdateProfileBody (Some "Mallory") (Some "wrong")
                 (Some "N3wPassw0rd!"))
              sampleDb) as (_ & _ & _ & _ & _ & Hsame).
  apply Hsame. discriminate.
Defined.

Lemma updateProfile_name_witness :
  name <$> lookupId "u1"
    (snd (updateProfile quietEnv (Some "u1")
            (mkUpdateProfileBody (Some "Asha Devi") None None) sampleDb)) =
    Some "Asha Devi"
  ∧ name <$> lookupId "u1"
      (snd (updateProfile quietEnv (Some "u1")
              (mkUpdateProfileBody (Some "") None None) sampleDb)) =
      Some "A".
Proof.
  destruct (updateProfile_name (hasher := demoHasher) (issuer := demoIssuer)
              quietEnv (Some "u1")
              (mkUpdateProfileBody (Some "Asha Devi") None None) sampleDb)
    as [_ Hset].
  destruct (updateProfile_name (hasher := demoHasher) (issuer := demoIssuer)
              quietEnv (Some "u1")
              (mkUpdateProfileBody (Some "") None None) sampleDb)
    as [Hkeep _].
  split.
  - destruct (Hset "u1" "Asha Devi") as [Hn _];
      [reflexivity|reflexivity|discriminate|reflexivity|exact Hn].
  - rewrite (Hkeep eq_refl "u1"). reflexivity.
Defined.

End MoreSamples.

End AuthMore.
